(** * smart_uuid: typed UUIDs carrying a category tag in byte 0

    Shallow embedding of the crates [smart_uuid] (typed_uuid.rs,
    user_friendly_uuid.rs, error.rs, traits.rs) and [smart_uuid_derive]
    (lib.rs), together with a model of the parts of the external [uuid]
    crate (1.x) and of the serde data model that the code calls. *)

From Stdlib Require Import ZArith List String Ascii Bool Lia.
Import ListNotations.
Open Scope string_scope.
Open Scope Z_scope.

(** Rust's [Result]. *)
Inductive result (A E : Type) : Type :=
| Ok : A -> result A E
| Err : E -> result A E.
Arguments Ok {A E} _.
Arguments Err {A E} _.

Definition map_err {A E F : Type} (f : E -> F) (r : result A E) : result A F :=
  match r with Ok a => Ok a | Err e => Err (f e) end.

(** [&s[..n]] and [&s[n..]] on byte strings. *)
Fixpoint str_take (n : nat) (s : string) : string :=
  match n, s with
  | O, _ => EmptyString
  | S n', String c r => String c (str_take n' r)
  | S _, EmptyString => EmptyString
  end.

Fixpoint str_drop (n : nat) (s : string) : string :=
  match n, s with
  | O, _ => s
  | S n', String _ r => str_drop n' r
  | S _, EmptyString => EmptyString
  end.

(** [str::rfind] for an ASCII character: byte index of the last occurrence. *)
Fixpoint rfind_aux (c : ascii) (s : string) (i : nat) (acc : option nat)
  : option nat :=
  match s with
  | EmptyString => acc
  | String d r => rfind_aux c r (S i) (if Ascii.eqb c d then Some i else acc)
  end.

Definition rfind (c : ascii) (s : string) : option nat := rfind_aux c s 0 None.

(** Bytes are [u8] values held in [Z]; a UUID is its 16 bytes, in order. *)
Definition is_byte (b : Z) : bool := (0 <=? b) && (b <? 256).

(** Index assignment [a[i] = v] on a fixed-size array (index in range). *)
Fixpoint set_nth {A : Type} (i : nat) (v : A) (l : list A) : list A :=
  match i, l with
  | _, [] => []
  | O, _ :: r => v :: r
  | S i', x :: r => x :: set_nth i' v r
  end.

(** ** The external [uuid] crate (1.x), as far as the code uses it *)
Module Uuid.

(** [Uuid::new_v8]: version nibble 8 in byte 6, variant bits [10] in byte 8. *)
Definition new_v8 (buf : list Z) : list Z :=
  let b6 := nth 6 buf 0 in
  let buf := set_nth 6 (Z.lor (Z.land b6 15) (Z.shiftl 8 4)) buf in
  let b8 := nth 8 buf 0 in
  set_nth 8 (Z.lor (Z.land b8 63) 128) buf.

(** Lower-case hexadecimal digit of a nibble. *)
Definition hex_digit (n : Z) : ascii :=
  ascii_of_nat (Z.to_nat (if n <? 10 then 48 + n else 87 + n)).

Definition byte_hex (b : Z) : string :=
  String (hex_digit (Z.shiftr b 4)) (String (hex_digit (Z.land b 15)) EmptyString).

Fixpoint hex_of (bs : list Z) : string :=
  match bs with
  | [] => EmptyString
  | b :: r => byte_hex b ++ hex_of r
  end.

(** [Display for Uuid]: the lower-case hyphenated form 8-4-4-4-12. *)
Definition encode_hyphenated (u : list Z) : string :=
  hex_of (firstn 4 u) ++ "-" ++ hex_of (firstn 2 (skipn 4 u)) ++ "-"
    ++ hex_of (firstn 2 (skipn 6 u)) ++ "-" ++ hex_of (firstn 2 (skipn 8 u))
    ++ "-" ++ hex_of (skipn 10 u).

(** [HEX_TABLE]: value of a hexadecimal digit, either case. *)
Definition hex_val (c : ascii) : option Z :=
  let n := Z.of_nat (nat_of_ascii c) in
  if (48 <=? n) && (n <=? 57) then Some (n - 48)
  else if (97 <=? n) && (n <=? 102) then Some (n - 87)
  else if (65 <=? n) && (n <=? 70) then Some (n - 55)
  else None.

(** One byte from two digits: [SHL4_TABLE[h1] | h2]. *)
Definition pair_val (c1 c2 : option ascii) : option Z :=
  match c1, c2 with
  | Some a, Some b =>
      match hex_val a, hex_val b with
      | Some h1, Some h2 => Some (Z.lor (Z.shiftl h1 4) h2)
      | _, _ => None
      end
  | _, _ => None
  end.

(** Decodes four digits at each listed position into two bytes. *)
Fixpoint decode_groups (s : string) (ps : list nat) : option (list Z) :=
  match ps with
  | [] => Some []
  | i :: r =>
      match pair_val (get i s) (get (i + 1) s),
            pair_val (get (i + 2) s) (get (i + 3) s),
            decode_groups s r with
      | Some a, Some b, Some rest => Some (a :: b :: rest)
      | _, _, _ => None
      end
  end%nat.

Definition parse_simple (s : string) : option (list Z) :=
  decode_groups s [0; 4; 8; 12; 16; 20; 24; 28]%nat.

Definition parse_hyphenated (s : string) : option (list Z) :=
  match get 8 s, get 13 s, get 18 s, get 23 s with
  | Some "-", Some "-", Some "-", Some "-" =>
      decode_groups s [0; 4; 9; 14; 19; 24; 28; 32]%nat
  | _, _, _, _ => None
  end%char.

(** The parse error of the crate. Its diagnostic text (which character,
    at which position) is not modelled: it is kept as the input. *)
Record Error := { invalid_input : string }.

Definition error_to_string (e : Error) : string :=
  "invalid UUID: " ++ invalid_input e.

(** [Uuid::parse_str]: simple (32), hyphenated (36), braced (38) and
    URN (45) forms. *)
Definition parse_str (s : string) : result (list Z) Error :=
  let r :=
    match String.length s with
    | 32%nat => parse_simple s
    | 36%nat => parse_hyphenated s
    | 38%nat =>
        match get 0 s, get 37 s with
        | Some "{"%char, Some "}"%char => parse_hyphenated (substring 1 36 s)
        | _, _ => None
        end
    | 45%nat =>
        if String.eqb (str_take 9 s) "urn:uuid:"
        then parse_hyphenated (str_drop 9 s) else None
    | _ => None
    end in
  match r with
  | Some u => Ok u
  | None => Err {| invalid_input := s |}
  end.

End Uuid.

(** ** error.rs *)
Inductive TypedUuidError : Type :=
| InvalidDiscriminant (found : Z) (type_name : string)
| ParseError (msg : string)
| UnknownPrefix (prefix : string) (type_name : string)
| InvalidFormat (msg : string).

(** ** traits.rs: the [UuidType] trait, with [std::any::type_name::<T>()]
    carried alongside the three trait methods. *)
Record UuidType (T : Type) : Type := {
  discriminant : T -> Z;
  from_discriminant : Z -> option T;
  prefix : T -> string;
  type_name : string
}.
Arguments discriminant {T} _ _.
Arguments from_discriminant {T} _ _.
Arguments prefix {T} _ _.
Arguments type_name {T} _.

(** ** typed_uuid.rs *)

(** [TypedUuid<T>]: the inner UUID; the category parameter is phantom. *)
Record TypedUuid {T : Type} (U : UuidType T) : Type := mkTypedUuid { inner : list Z }.
Arguments mkTypedUuid {T U} _.
Arguments inner {T U} _.

Section TypedUuidDefs.
Context {T : Type} (U : UuidType T).

(** [TypedUuid::new]: [rnd] are the 16 bytes drawn from the RNG. *)
Definition new (variant : T) (rnd : list Z) : TypedUuid U :=
  let bytes := set_nth 0 (discriminant U variant) rnd in
  mkTypedUuid (Uuid.new_v8 bytes).

Definition as_bytes (x : TypedUuid U) : list Z := inner x.

(** [TypedUuid::from_uuid]. *)
Definition from_uuid (uuid : list Z) : result (TypedUuid U) TypedUuidError :=
  let d := nth 0 uuid 0 in
  match from_discriminant U d with
  | None => Err (InvalidDiscriminant d (type_name U))
  | Some _ => Ok (mkTypedUuid uuid)
  end.

(** [TypedUuid::variant_type]: [None] is the panic of the [expect]. *)
Definition variant_type (x : TypedUuid U) : option T :=
  from_discriminant U (nth 0 (inner x) 0).

(** [Display for TypedUuid]. *)
Definition typed_to_string (x : TypedUuid U) : string :=
  Uuid.encode_hyphenated (inner x).

(** [FromStr for TypedUuid]. *)
Definition typed_from_str (s : string) : result (TypedUuid U) TypedUuidError :=
  match Uuid.parse_str s with
  | Err e => Err (ParseError (Uuid.error_to_string e))
  | Ok uuid => from_uuid uuid
  end.

End TypedUuidDefs.

(** ** user_friendly_uuid.rs *)
Record UserFriendlyUuid {T : Type} (U : UuidType T) : Type :=
  mkUserFriendly { typed_uuid : TypedUuid U }.
Arguments mkUserFriendly {T U} _.
Arguments typed_uuid {T U} _.

Section UserFriendlyDefs.
Context {T : Type} (U : UuidType T).

Definition from_typed_uuid (typed : TypedUuid U) : UserFriendlyUuid U :=
  mkUserFriendly typed.

(** [UserFriendlyUuid::new]: [rnd] are the 16 bytes drawn by [TypedUuid::new]. *)
Definition friendly_new (variant : T) (rnd : list Z) : UserFriendlyUuid U :=
  mkUserFriendly (new U variant rnd).

(** [UserFriendlyUuid::prefix]; [None] is the panic of [variant_type]. *)
Definition friendly_prefix (y : UserFriendlyUuid U) : option string :=
  match variant_type U (typed_uuid y) with
  | Some t => Some (prefix U t)
  | None => None
  end.

(** [Display for UserFriendlyUuid]: ["{}_{}"] of the prefix and the UUID. *)
Definition friendly_to_string (y : UserFriendlyUuid U) : option string :=
  match friendly_prefix y with
  | Some p => Some (p ++ "_" ++ Uuid.encode_hyphenated (inner (typed_uuid y)))
  | None => None
  end.

Definition no_underscore_msg : string :=
  "expected format 'prefix_uuid', no underscore found".

(** [UserFriendlyUuid::parse_str]; the outer [None] is a panic (of the
    [expect] inside [variant_type]). *)
Definition parse_str (s : string)
  : option (result (UserFriendlyUuid U) TypedUuidError) :=
  match rfind "_"%char s with
  | None => Some (Err (InvalidFormat no_underscore_msg))
  | Some underscore_pos =>
      let pfx := str_take underscore_pos s in
      let uuid_str := str_drop (underscore_pos + 1) s in
      match Uuid.parse_str uuid_str with
      | Err e => Some (Err (ParseError (Uuid.error_to_string e)))
      | Ok uuid =>
          match from_uuid U uuid with
          | Err e => Some (Err e)
          | Ok typed =>
              match variant_type U typed with
              | None => None
              | Some v =>
                  if negb (String.eqb pfx (prefix U v))
                  then Some (Err (UnknownPrefix pfx (type_name U)))
                  else Some (Ok (mkUserFriendly typed))
              end
          end
      end
  end.

End UserFriendlyDefs.

(** ** Display of [TypedUuidError] (the [#[error(...)]] formats) *)
Fixpoint dec_aux (fuel : nat) (n : Z) (acc : string) : string :=
  match fuel with
  | O => acc
  | S f =>
      let acc' := String (ascii_of_nat (48 + Z.to_nat (n mod 10))) acc in
      if n <? 10 then acc' else dec_aux f (n / 10) acc'
  end.

Definition dec_of_Z (n : Z) : string := dec_aux 20 n EmptyString.

Definition error_to_string (e : TypedUuidError) : string :=
  match e with
  | InvalidDiscriminant found tn =>
      "invalid discriminant " ++ dec_of_Z found ++ " for type " ++ tn
  | ParseError m => "failed to parse UUID: " ++ m
  | UnknownPrefix p tn => "unknown prefix '" ++ p ++ "' for type " ++ tn
  | InvalidFormat m => "invalid format: " ++ m
  end.

(** ** The serde data model, as far as the code and the [uuid] crate use it.
    A serializer or deserializer is reduced to its [is_human_readable] flag
    and the value written or read. *)
Module Serde.

Inductive SerValue : Type :=
| SStr (s : string)
| SBytes (bs : list Z).

(** [D::Error]; [serde::de::Error::custom] keeps the [Display] text. *)
Record DeError : Type := custom { de_message : string }.

Definition invalid_type : DeError := custom "invalid type".

(** [Serialize for Uuid] of the [uuid] crate. *)
Definition uuid_serialize (human_readable : bool) (u : list Z) : SerValue :=
  if human_readable then SStr (Uuid.encode_hyphenated u) else SBytes u.

(** [Uuid::from_slice]. *)
Definition uuid_from_slice (b : list Z) : result (list Z) DeError :=
  if Nat.eqb (List.length b) 16 then Ok b
  else Err (custom "UUID parsing failed: invalid length").

(** [Deserialize for Uuid] of the [uuid] crate: [deserialize_str] with a
    visitor taking strings and bytes when human-readable, otherwise
    [deserialize_bytes] with a visitor taking bytes. *)
Definition uuid_deserialize (human_readable : bool) (v : SerValue)
  : result (list Z) DeError :=
  match human_readable, v with
  | true, SStr s =>
      map_err (fun e => custom ("UUID parsing failed: " ++ Uuid.error_to_string e))
              (Uuid.parse_str s)
  | _, SBytes b => uuid_from_slice b
  | false, SStr _ => Err invalid_type
  end.

(** [Deserialize for String]: a string, or bytes read as its bytes. *)
Definition string_deserialize (v : SerValue) : result string DeError :=
  match v with
  | SStr s => Ok s
  | SBytes b =>
      Ok (string_of_list_ascii (List.map (fun z => ascii_of_nat (Z.to_nat z)) b))
  end.

Section Impls.
Context {T : Type} (U : UuidType T).

(** [Serialize for TypedUuid]: [self.inner.serialize(serializer)]. *)
Definition typed_serialize (hr : bool) (x : TypedUuid U) : SerValue :=
  uuid_serialize hr (inner x).

(** [Deserialize for TypedUuid]. *)
Definition typed_deserialize (hr : bool) (v : SerValue)
  : result (TypedUuid U) DeError :=
  match uuid_deserialize hr v with
  | Err e => Err e
  | Ok uuid => map_err (fun e => custom (error_to_string e)) (from_uuid U uuid)
  end.

(** [Serialize for UserFriendlyUuid]: [serialize_str(&self.to_string())];
    [None] is a panic of [to_string]. *)
Definition friendly_serialize (hr : bool) (y : UserFriendlyUuid U)
  : option SerValue :=
  match friendly_to_string U y with
  | Some s => Some (SStr s)
  | None => None
  end.

(** [Deserialize for UserFriendlyUuid]. *)
Definition friendly_deserialize (hr : bool) (v : SerValue)
  : option (result (UserFriendlyUuid U) DeError) :=
  match string_deserialize v with
  | Err e => Some (Err e)
  | Ok s =>
      match parse_str U s with
      | None => None
      | Some r => Some (map_err (fun e => custom (error_to_string e)) r)
      end
  end.

End Impls.
End Serde.

(** ** smart_uuid_derive/src/lib.rs *)
Module Derive.

(** The part of [syn]'s [DeriveInput] the macro inspects. *)
Inductive Lit : Type :=
| LitStr (value : string)
| LitOther (repr : string).

(** What follows the path of a nested meta item. *)
Inductive MetaValue : Type :=
| NoValue                     (* [key] *)
| EqLit (l : Lit)             (* [key = lit] *)
| Parens.                     (* [key(...)] *)

Inductive MetaItem : Type :=
| Meta (path : string) (value : MetaValue)
| MetaMalformed (msg : string).  (* tokens that are not a meta item *)

(** An attribute [#[path(args)]]; [args = None] is [#[path]] or [#[path = ...]]. *)
Record Attribute : Type := { attr_path : string; attr_args : option (list MetaItem) }.

Inductive Fields : Type := FieldsUnit | FieldsNamed | FieldsUnnamed.

Record Variant : Type := { ident : string; fields : Fields; attrs : list Attribute }.

Inductive Data : Type :=
| DataEnum (variants : list Variant)
| DataStruct
| DataUnion.

Record DeriveInput : Type := { input_ident : string; data : Data }.

(** A compile error: its message. *)
Definition CompileError := string.

(** The three lists of match arms of the emitted [impl UuidType]. *)
Record GeneratedImpl : Type := {
  impl_for : string;
  discriminant_arms : list (string * Z);
  from_discriminant_arms : list (Z * string);
  prefix_arms : list (string * string)
}.

(** [i as u8]. *)
Definition as_u8 (i : nat) : Z := Z.of_nat i mod 256.

(** ASCII [char::is_uppercase], [char::is_lowercase], [to_lowercase]. *)
Definition is_uppercase (c : ascii) : bool :=
  let n := nat_of_ascii c in (65 <=? n)%nat && (n <=? 90)%nat.
Definition is_lowercase (c : ascii) : bool :=
  let n := nat_of_ascii c in (97 <=? n)%nat && (n <=? 122)%nat.
Definition to_lowercase (c : ascii) : ascii :=
  if is_uppercase c then ascii_of_nat (nat_of_ascii c + 32) else c.

(** One iteration of the loop of [to_snake_case], at index [i] of [chars]. *)
Definition snake_step (chars : list ascii) (result : string) (i : nat) : string :=
  let c := nth i chars "000"%char in
  if is_uppercase c then
    let result :=
      if (0 <? i)%nat then
        let prev_lower := is_lowercase (nth (i - 1) chars "000"%char) in
        let next_lower :=
          match nth_error chars (i + 1) with
          | Some n => is_lowercase n
          | None => false
          end in
        if prev_lower || next_lower then result ++ "_" else result
      else result in
    result ++ String (to_lowercase c) EmptyString
  else result ++ String c EmptyString.

(** [to_snake_case]: the loop over [(i, c)] pushing onto [result]. *)
Definition to_snake_case (s : string) : string :=
  let chars := list_ascii_of_string s in
  fold_left (snake_step chars) (seq 0 (List.length chars)) EmptyString.

Definition unknown_key_msg (k : string) : string :=
  let dq := String "034"%char EmptyString in
  "unknown uuid_type attribute `" ++ k ++ "`. Expected `prefix = " ++ dq ++ "..." ++ dq ++ "`".

(** [attr.parse_nested_meta(closure)] with the closure of
    [get_prefix_from_attrs]; the state is [(prefix, had_error)]. *)
Fixpoint parse_nested_meta (metas : list MetaItem)
    (st : option string * option CompileError)
  : result (option string * option CompileError) CompileError :=
  match metas with
  | [] => Ok st
  | MetaMalformed msg :: _ => Err msg
  | Meta k v :: rest =>
      let (pfx, had_error) := st in
      if String.eqb k "prefix" then
        match v with
        | EqLit (LitStr value) => parse_nested_meta rest (Some value, had_error)
        | EqLit (LitOther _) => Err "expected string literal"
        | NoValue | Parens => Err "expected `=`"
        end
      else
        let had_error := Some (unknown_key_msg k) in
        match v with
        | NoValue | EqLit _ => parse_nested_meta rest (pfx, had_error)
        | Parens => Err "expected `,`"
        end
  end.

(** [get_prefix_from_attrs]. *)
Fixpoint get_prefix_from_attrs (attrs : list Attribute)
  : result (option string) CompileError :=
  match attrs with
  | [] => Ok None
  | attr :: rest =>
      if negb (String.eqb (attr_path attr) "uuid_type") then get_prefix_from_attrs rest
      else
        match attr_args attr with
        | None => Err "expected attribute arguments in parentheses"
        | Some metas =>
            match parse_nested_meta metas (None, None) with
            | Err e => Err e
            | Ok (_, Some e) => Err e
            | Ok (Some p, None) => Ok (Some p)
            | Ok (None, None) => get_prefix_from_attrs rest
            end
        end
  end.

Definition is_unit (v : Variant) : bool :=
  match fields v with FieldsUnit => true | _ => false end.

(** The [prefix_arms] loop: the first failing variant aborts. *)
Fixpoint prefix_arms_of (vs : list Variant)
  : result (list (string * string)) CompileError :=
  match vs with
  | [] => Ok []
  | v :: rest =>
      match get_prefix_from_attrs (attrs v) with
      | Err e => Err e
      | Ok p =>
          let pfx := match p with Some p => p | None => to_snake_case (ident v) end in
          match prefix_arms_of rest with
          | Err e => Err e
          | Ok arms => Ok ((ident v, pfx) :: arms)
          end
      end
  end.

(** [impl_uuid_type]. *)
Definition impl_uuid_type (input : DeriveInput) : result GeneratedImpl CompileError :=
  match data input with
  | DataStruct | DataUnion => Err "UuidType can only be derived for enums"
  | DataEnum variants =>
      if negb (forallb is_unit variants) then
        Err "UuidType can only be derived for enums with unit variants (no fields)"
      else if (List.length variants =? 0)%nat then
        Err "UuidType cannot be derived for empty enums (at least one variant required)"
      else if (256 <? List.length variants)%nat then
        Err "UuidType can only be derived for enums with at most 256 variants"
      else
        let discriminant_arms :=
          List.map (fun '(i, v) => (ident v, as_u8 i)) (combine (seq 0 (List.length variants)) variants) in
        let from_discriminant_arms :=
          List.map (fun '(i, v) => (as_u8 i, ident v)) (combine (seq 0 (List.length variants)) variants) in
        match prefix_arms_of variants with
        | Err e => Err e
        | Ok prefix_arms =>
            Ok {| impl_for := input_ident input;
                  discriminant_arms := discriminant_arms;
                  from_discriminant_arms := from_discriminant_arms;
                  prefix_arms := prefix_arms |}
        end
  end.

(** Evaluation of a Rust [match] over literal arms: the first arm whose
    pattern equals the scrutinee. *)
Fixpoint match_arms {K V : Type} (eqb : K -> K -> bool) (arms : list (K * V)) (k : K)
  : option V :=
  match arms with
  | [] => None
  | (p, v) :: rest => if eqb p k then Some v else match_arms eqb rest k
  end.

(** The emitted methods, on the cases named by their identifiers. The
    [match self] blocks are exhaustive over the enum's cases, so [None]
    does not arise on a case; for [from_discriminant] [None] is the
    [_ => None] arm. *)
Definition gen_discriminant (g : GeneratedImpl) (t : string) : option Z :=
  match_arms String.eqb (discriminant_arms g) t.
Definition gen_from_discriminant (g : GeneratedImpl) (value : Z) : option string :=
  match_arms Z.eqb (from_discriminant_arms g) value.
Definition gen_prefix (g : GeneratedImpl) (t : string) : option string :=
  match_arms String.eqb (prefix_arms g) t.

End Derive.

(** ** The snake-case rule as the specification words it (section 4.2):
    walking the characters, an uppercase letter gets an underscore before
    its lowercase form iff it is not the first character and the previous
    character is lowercase or the next one exists and is lowercase; every
    other character is emitted verbatim. *)
Fixpoint snake_case_spec (prev : option ascii) (l : list ascii) : string :=
  match l with
  | [] => EmptyString
  | c :: rest =>
      let next_lower :=
        match rest with d :: _ => Derive.is_lowercase d | [] => false end in
      let here :=
        if Derive.is_uppercase c then
          match prev with
          | Some p =>
              if Derive.is_lowercase p || next_lower
              then String "_" (String (Derive.to_lowercase c) EmptyString)
              else String (Derive.to_lowercase c) EmptyString
          | None => String (Derive.to_lowercase c) EmptyString
          end
        else String c EmptyString in
      here ++ snake_case_spec (Some c) rest
  end.

(** ** Category sets obtained from the generator *)

(** The [UuidType] implementation emitted for an enum, seen on a Rust-side
    enum type [T] through the identifiers of its cases. *)
Definition derived_uuid_type {T : Type} (g : Derive.GeneratedImpl)
    (name : T -> string) (of_name : string -> option T) (tn : string) : UuidType T :=
  {| discriminant t :=
       match Derive.gen_discriminant g (name t) with Some d => d | None => 0 end;
     from_discriminant b :=
       match Derive.gen_from_discriminant g b with Some s => of_name s | None => None end;
     prefix t :=
       match Derive.gen_prefix g (name t) with Some p => p | None => EmptyString end;
     type_name := tn |}.

Definition unit_case (n : string) : Derive.Variant :=
  {| Derive.ident := n; Derive.fields := Derive.FieldsUnit; Derive.attrs := [] |}.

Definition prefixed_case (n p : string) : Derive.Variant :=
  {| Derive.ident := n; Derive.fields := Derive.FieldsUnit;
     Derive.attrs := [{| Derive.attr_path := "uuid_type";
                         Derive.attr_args :=
                           Some [Derive.Meta "prefix" (Derive.EqLit (Derive.LitStr p))] |}] |}.

Definition generated (input : Derive.DeriveInput) : Derive.GeneratedImpl :=
  match Derive.impl_uuid_type input with
  | Ok g => g
  | Err _ => {| Derive.impl_for := Derive.input_ident input; Derive.discriminant_arms := [];
                Derive.from_discriminant_arms := []; Derive.prefix_arms := [] |}
  end.

(** [enum UserType { Retail, Business, #[uuid_type(prefix = "org")] Organization }]
    of the test suite. *)
Inductive UserType : Type := Retail | Business | Organization.

Definition UserType_input : Derive.DeriveInput :=
  {| Derive.input_ident := "UserType";
     Derive.data := Derive.DataEnum
       [unit_case "Retail"; unit_case "Business"; prefixed_case "Organization" "org"] |}.

Definition UserType_name (t : UserType) : string :=
  match t with Retail => "Retail" | Business => "Business" | Organization => "Organization" end.

Definition UserType_of_name (s : string) : option UserType :=
  if String.eqb s "Retail" then Some Retail
  else if String.eqb s "Business" then Some Business
  else if String.eqb s "Organization" then Some Organization
  else None.

Definition UserTypeU : UuidType UserType :=
  derived_uuid_type (generated UserType_input) UserType_name UserType_of_name
    "uuid_tests::UserType".

(** [enum DocumentType] of the custom-prefix test, with a prefix containing an
    underscore. *)
Inductive DocumentType : Type := Invoice | Receipt | PurchaseOrder | Quote.

Definition DocumentType_input : Derive.DeriveInput :=
  {| Derive.input_ident := "DocumentType";
     Derive.data := Derive.DataEnum
       [unit_case "Invoice"; prefixed_case "Receipt" "rcpt";
        prefixed_case "PurchaseOrder" "purchase_order"; prefixed_case "Quote" "q"] |}.

Definition DocumentType_name (t : DocumentType) : string :=
  match t with
  | Invoice => "Invoice" | Receipt => "Receipt"
  | PurchaseOrder => "PurchaseOrder" | Quote => "Quote"
  end.

Definition DocumentType_of_name (s : string) : option DocumentType :=
  if String.eqb s "Invoice" then Some Invoice
  else if String.eqb s "Receipt" then Some Receipt
  else if String.eqb s "PurchaseOrder" then Some PurchaseOrder
  else if String.eqb s "Quote" then Some Quote
  else None.

Definition DocumentTypeU : UuidType DocumentType :=
  derived_uuid_type (generated DocumentType_input) DocumentType_name DocumentType_of_name
    "custom_prefix::DocumentType".

(** An enum whose single case overrides its prefix with the empty literal,
    [#[uuid_type(prefix = "")] Anonymous]: the generator accepts it. *)
Inductive Untagged : Type := Anonymous.

Definition Untagged_input : Derive.DeriveInput :=
  {| Derive.input_ident := "Untagged";
     Derive.data := Derive.DataEnum [prefixed_case "Anonymous" EmptyString] |}.

Definition UntaggedU : UuidType Untagged :=
  derived_uuid_type (generated Untagged_input) (fun _ => "Anonymous")
    (fun s => if String.eqb s "Anonymous" then Some Anonymous else None)
    "demo::Untagged".

(** A sample random draw and UUIDs used on concrete inputs. *)
Definition sample_rnd : list Z :=
  [85; 14; 132; 0; 226; 155; 65; 212; 167; 22; 68; 102; 85; 68; 0; 0].

(** Values of [TypedUuid<T>] obtainable through the public constructors:
    [new] (with a 16-byte draw), [from_uuid], [FromStr] and [Deserialize].
    There is no operation that changes the bytes of a value afterwards. *)
Inductive reachable {T : Type} (U : UuidType T) : TypedUuid U -> Prop :=
| reach_new (t : T) (rnd : list Z) :
    List.length rnd = 16%nat -> reachable U (new U t rnd)
| reach_from_uuid (u : list Z) (x : TypedUuid U) :
    from_uuid U u = Ok x -> reachable U x
| reach_from_str (s : string) (x : TypedUuid U) :
    typed_from_str U s = Ok x -> reachable U x
| reach_deserialize (hr : bool) (v : Serde.SerValue) (x : TypedUuid U) :
    Serde.typed_deserialize U hr v = Ok x -> reachable U x.

(** Characters of the lower-case hexadecimal alphabet [0-9a-f]. *)
Definition is_lower_hex (c : ascii) : bool :=
  let n := nat_of_ascii c in ((48 <=? n)%nat && (n <=? 57)%nat) || ((97 <=? n)%nat && (n <=? 102)%nat).

(** * Proofs *)

(** ** String helpers *)
Lemma str_app_assoc (a b c : string) : (a ++ b) ++ c = a ++ (b ++ c).
Proof. induction a as [|x a IH]; simpl; [reflexivity | now rewrite IH]. Qed.

Lemma str_app_nil_r (a : string) : a ++ EmptyString = a.
Proof. induction a as [|x a IH]; simpl; [reflexivity | now rewrite IH]. Qed.

(** ** Snake case: the loop agrees with the specification's rule *)
Lemma snake_fold_inv (rest pre : list ascii) (acc : string) :
  fold_left (Derive.snake_step (pre ++ rest)) (seq (List.length pre) (List.length rest)) acc
  = acc ++ snake_case_spec (hd_error (rev pre)) rest.
Proof.
  revert pre acc; induction rest as [|a rest IH]; intros pre acc.
  - simpl. now rewrite str_app_nil_r.
  - cbn [List.length seq fold_left].
    pose proof (IH (pre ++ [a])%list) as IH'.
    rewrite <- app_assoc in IH'; cbn [app] in IH'.
    rewrite length_app in IH'; cbn [List.length] in IH'.
    rewrite Nat.add_1_r in IH'. rewrite IH'; clear IH IH'.
    rewrite rev_app_distr; cbn [rev app hd_error].
    unfold Derive.snake_step.
    rewrite nth_middle.
    assert (Hnext : nth_error (pre ++ a :: rest)%list (List.length pre + 1)
                    = match rest with d :: _ => Some d | [] => None end).
    { rewrite nth_error_app2 by lia. replace (List.length pre + 1 - List.length pre)%nat with 1%nat by lia.
      destruct rest; reflexivity. }
    rewrite Hnext.
    cbn [snake_case_spec].
    destruct (Derive.is_uppercase a) eqn:Hu.
    + destruct pre as [|p0 pre'] using rev_ind.
      * cbn. now rewrite str_app_assoc.
      * clear IHpre'.
        rewrite length_app; cbn [List.length].
        replace (List.length pre' + 1 - 1)%nat with (List.length pre') by lia.
        rewrite <- app_assoc; cbn [app]. rewrite nth_middle.
        rewrite rev_app_distr; cbn [rev app hd_error].
        replace (0 <? List.length pre' + 1)%nat with true
          by (symmetry; apply Nat.ltb_lt; lia).
        destruct (Derive.is_lowercase p0 || match rest with d :: _ => Derive.is_lowercase d | [] => false end) eqn:Hc;
          destruct rest; cbn in Hc |- *; rewrite ?Hc; rewrite ?str_app_assoc; reflexivity.
    + now rewrite str_app_assoc.
Qed.

(** ** Bytes of [new] *)
Ltac destruct_16 l :=
  do 16 (let b := fresh "b" in destruct l as [|b l]; [discriminate|]);
  destruct l; [|discriminate].

Lemma version_nibble (b : Z) : Z.shiftr (Z.lor (Z.land b 15) (Z.shiftl 8 4)) 4 = 8.
Proof.
  change 15 with (Z.ones 4). rewrite Z.land_ones by lia.
  pose proof (Z.mod_pos_bound b (2 ^ 4)) as Hm.
  rewrite Z.shiftr_lor, !Z.shiftr_div_pow2 by lia.
  rewrite (Z.div_small (b mod 2 ^ 4)) by lia. reflexivity.
Qed.

Lemma variant_bits (b : Z) : Z.shiftr (Z.lor (Z.land b 63) 128) 6 = 2.
Proof.
  change 63 with (Z.ones 6). rewrite Z.land_ones by lia.
  pose proof (Z.mod_pos_bound b (2 ^ 6)) as Hm.
  rewrite Z.shiftr_lor, !Z.shiftr_div_pow2 by lia.
  rewrite (Z.div_small (b mod 2 ^ 6)) by lia. reflexivity.
Qed.

Lemma new_bytes {T : Type} (U : UuidType T) (t : T) (rnd : list Z) :
  List.length rnd = 16%nat ->
  exists b1 b2 b3 b4 b5 b6 b7 b8 b9 b10 b11 b12 b13 b14 b15,
    inner (new U t rnd) =
      [discriminant U t; b1; b2; b3; b4; b5;
       Z.lor (Z.land b6 15) (Z.shiftl 8 4); b7; Z.lor (Z.land b8 63) 128;
       b9; b10; b11; b12; b13; b14; b15].
Proof.
  intros Hlen. destruct_16 rnd.
  do 15 eexists. reflexivity.
Qed.

(** ** [from_discriminant] lookups in the generated match arms *)
Section GeneratedArms.
Import Derive.

Lemma as_u8_small (i : nat) : (i < 256)%nat -> as_u8 i = Z.of_nat i.
Proof. intros H. unfold as_u8. apply Z.mod_small. lia. Qed.

Lemma discriminant_arms_lookup (vs : list Variant) (k i : nat) (v : Variant) :
  nth_error vs i = Some v -> NoDup (List.map ident vs) ->
  (k + List.length vs <= 256)%nat ->
  match_arms String.eqb
    (List.map (fun '(i, v) => (ident v, as_u8 i)) (combine (seq k (List.length vs)) vs))
    (ident v) = Some (Z.of_nat (k + i)).
Proof.
  revert k i; induction vs as [|w vs IH]; intros k i Hnth Hnd Hk.
  - destruct i; discriminate.
  - cbn [List.length seq combine List.map match_arms] in *.
    inversion Hnd as [|? ? Hnotin Hnd']; subst.
    destruct i as [|i]; cbn in Hnth.
    + injection Hnth as <-. rewrite String.eqb_refl.
      rewrite as_u8_small by lia. f_equal. lia.
    + destruct (String.eqb (ident w) (ident v)) eqn:He.
      * apply String.eqb_eq in He. exfalso. apply Hnotin. rewrite He.
        apply in_map. eapply nth_error_In. exact Hnth.
      * rewrite (IH (S k) i) by (assumption || lia). f_equal. lia.
Qed.

Lemma from_discriminant_arms_lookup (vs : list Variant) (k i : nat) (v : Variant) :
  nth_error vs i = Some v -> (k + List.length vs <= 256)%nat ->
  match_arms Z.eqb
    (List.map (fun '(i, v) => (as_u8 i, ident v)) (combine (seq k (List.length vs)) vs))
    (Z.of_nat (k + i)) = Some (ident v).
Proof.
  revert k i; induction vs as [|w vs IH]; intros k i Hnth Hk.
  - destruct i; discriminate.
  - cbn [List.length seq combine List.map match_arms] in *.
    rewrite as_u8_small by lia.
    destruct i as [|i]; cbn in Hnth.
    + injection Hnth as <-. rewrite Nat.add_0_r, Z.eqb_refl. reflexivity.
    + replace (Z.of_nat k =? Z.of_nat (k + S i)) with false
        by (symmetry; apply Z.eqb_neq; lia).
      replace (k + S i)%nat with (S k + i)%nat by lia.
      apply IH; (assumption || lia).
Qed.

Lemma from_discriminant_arms_miss (vs : list Variant) (k : nat) (b : Z) :
  (k + List.length vs <= 256)%nat -> Z.of_nat (k + List.length vs) <= b ->
  match_arms Z.eqb
    (List.map (fun '(i, v) => (as_u8 i, ident v)) (combine (seq k (List.length vs)) vs))
    b = None.
Proof.
  revert k; induction vs as [|w vs IH]; intros k Hk Hb.
  - reflexivity.
  - cbn [List.length seq combine List.map match_arms] in *.
    rewrite as_u8_small by lia.
    replace (Z.of_nat k =? b) with false by (symmetry; apply Z.eqb_neq; lia).
    apply IH; lia.
Qed.

Lemma impl_uuid_type_ok (input : DeriveInput) (g : GeneratedImpl) (vs : list Variant) :
  data input = DataEnum vs -> impl_uuid_type input = Ok g ->
  (1 <= List.length vs <= 256)%nat /\
  discriminant_arms g =
    List.map (fun '(i, v) => (ident v, as_u8 i)) (combine (seq 0 (List.length vs)) vs) /\
  from_discriminant_arms g =
    List.map (fun '(i, v) => (as_u8 i, ident v)) (combine (seq 0 (List.length vs)) vs).
Proof.
  intros Hd Hok. unfold impl_uuid_type in Hok. rewrite Hd in Hok.
  destruct (negb (forallb is_unit vs)); [discriminate|].
  destruct (List.length vs =? 0)%nat eqn:H0; [discriminate|].
  destruct (256 <? List.length vs)%nat eqn:H1; [discriminate|].
  apply Nat.eqb_neq in H0. apply Nat.ltb_ge in H1.
  destruct (prefix_arms_of vs); [|discriminate].
  injection Hok as <-. cbn. repeat split; lia.
Qed.
End GeneratedArms.

(** ** The hyphenated form: decoding inverts encoding on bytes *)
Lemma byte_range_cases (P : Z -> Prop) :
  (forall n, In n (seq 0 256) -> P (Z.of_nat n)) -> forall b, 0 <= b < 256 -> P b.
Proof.
  intros H b Hb. rewrite <- (Z2Nat.id b) by lia. apply H.
  apply in_seq. lia.
Qed.

Lemma pair_val_byte_hex (b : Z) :
  0 <= b < 256 ->
  Uuid.pair_val (Some (Uuid.hex_digit (Z.shiftr b 4)))
                (Some (Uuid.hex_digit (Z.land b 15))) = Some b.
Proof.
  revert b. apply byte_range_cases. intros n Hn.
  assert (Hc : forallb (fun n =>
                 match Uuid.pair_val (Some (Uuid.hex_digit (Z.shiftr (Z.of_nat n) 4)))
                         (Some (Uuid.hex_digit (Z.land (Z.of_nat n) 15))) with
                 | Some z => Z.eqb z (Z.of_nat n) | None => false end)
                 (seq 0 256) = true) by (vm_compute; reflexivity).
  rewrite forallb_forall in Hc. specialize (Hc n Hn).
  destruct (Uuid.pair_val _ _); [|discriminate].
  apply Z.eqb_eq in Hc. now subst.
Qed.

Lemma hex_digits_not_underscore (b : Z) :
  0 <= b < 256 ->
  Uuid.hex_digit (Z.shiftr b 4) <> "_"%char /\ Uuid.hex_digit (Z.land b 15) <> "_"%char.
Proof.
  revert b. apply byte_range_cases. intros n Hn.
  assert (Hc : forallb (fun n => negb (Ascii.eqb (Uuid.hex_digit (Z.shiftr (Z.of_nat n) 4)) "_")
                          && negb (Ascii.eqb (Uuid.hex_digit (Z.land (Z.of_nat n) 15)) "_"))
                 (seq 0 256) = true) by (vm_compute; reflexivity).
  rewrite forallb_forall in Hc. specialize (Hc n Hn).
  apply andb_prop in Hc as [H1 H2]. apply negb_true_iff, Ascii.eqb_neq in H1, H2.
  split; assumption.
Qed.

Lemma hex_of_no_underscore (l : list Z) :
  Forall (fun b => 0 <= b < 256) l -> ~ In "_"%char (list_ascii_of_string (Uuid.hex_of l)).
Proof.
  induction 1 as [|b l Hb Hl IH]; cbn [Uuid.hex_of]; [cbn; tauto|].
  unfold Uuid.byte_hex. cbn [String.append list_ascii_of_string In].
  destruct (hex_digits_not_underscore b Hb) as [H1 H2].
  intros [He|[He|He]]; [congruence|congruence|contradiction].
Qed.

Lemma list_ascii_of_string_app (a b : string) :
  list_ascii_of_string (a ++ b) = (list_ascii_of_string a ++ list_ascii_of_string b)%list.
Proof. induction a as [|c a IH]; cbn; [reflexivity|now rewrite IH]. Qed.

Lemma Forall_firstn' {A : Type} (P : A -> Prop) (n : nat) (l : list A) :
  Forall P l -> Forall P (firstn n l).
Proof.
  revert l; induction n as [|n IH]; intros l Hl; [constructor|].
  destruct Hl; cbn; constructor; auto.
Qed.

Lemma Forall_skipn' {A : Type} (P : A -> Prop) (n : nat) (l : list A) :
  Forall P l -> Forall P (skipn n l).
Proof.
  revert l; induction n as [|n IH]; intros l Hl; [exact Hl|].
  destruct Hl; cbn; auto.
Qed.

Lemma encode_no_underscore (u : list Z) :
  Forall (fun b => 0 <= b < 256) u ->
  ~ In "_"%char (list_ascii_of_string (Uuid.encode_hyphenated u)).
Proof.
  intros Hu. unfold Uuid.encode_hyphenated.
  rewrite !list_ascii_of_string_app. cbn [list_ascii_of_string].
  repeat rewrite in_app_iff. cbn [In].
  pose proof (fun n => hex_of_no_underscore (firstn n u) (Forall_firstn' _ _ _ Hu)) as A1.
  pose proof (fun n m => hex_of_no_underscore (firstn n (skipn m u))
                           (Forall_firstn' _ _ _ (Forall_skipn' _ _ _ Hu))) as A2.
  pose proof (hex_of_no_underscore (skipn 10 u) (Forall_skipn' _ _ _ Hu)) as A3.
  intros H. repeat destruct H as [H|H]; try discriminate.
  all: first [exact (A1 _ H) | exact (A2 _ _ H) | exact (A3 H) | exact H].
Qed.

Lemma parse_encode (u : list Z) :
  List.length u = 16%nat -> Forall (fun b => 0 <= b < 256) u ->
  Uuid.parse_str (Uuid.encode_hyphenated u) = Ok u.
Proof.
  intros Hlen Hu. destruct_16 u.
  repeat match goal with H : Forall _ (_ :: _) |- _ => inversion_clear H end.
  unfold Uuid.parse_str, Uuid.parse_hyphenated, Uuid.encode_hyphenated.
  cbn -[Uuid.pair_val Uuid.hex_digit Z.shiftr Z.land].
  rewrite !pair_val_byte_hex by assumption. reflexivity.
Qed.

(** ** [rfind] and slicing around the last underscore *)
Lemma rfind_aux_absent (c : ascii) (s : string) (i : nat) (acc : option nat) :
  ~ In c (list_ascii_of_string s) -> rfind_aux c s i acc = acc.
Proof.
  revert i acc; induction s as [|d s IH]; intros i acc Hn; [reflexivity|].
  cbn in Hn |- *. destruct (Ascii.eqb c d) eqn:E.
  - apply Ascii.eqb_eq in E. subst. tauto.
  - apply IH. tauto.
Qed.

Lemma rfind_aux_app (c : ascii) (pre s : string) (i : nat) (acc : option nat) :
  exists acc', rfind_aux c (pre ++ s) i acc = rfind_aux c s (i + String.length pre) acc'.
Proof.
  revert i acc; induction pre as [|d pre IH]; intros i acc.
  - exists acc. cbn. now rewrite Nat.add_0_r.
  - cbn. destruct (IH (S i) (if Ascii.eqb c d then Some i else acc)) as [acc' H].
    exists acc'. rewrite H. f_equal. lia.
Qed.

Lemma rfind_last (pre post : string) :
  ~ In "_"%char (list_ascii_of_string post) ->
  rfind "_" (pre ++ String "_" post) = Some (String.length pre).
Proof.
  intros Hn. unfold rfind.
  destruct (rfind_aux_app "_" pre (String "_" post) 0 None) as [acc' ->].
  cbn [rfind_aux]. rewrite Ascii.eqb_refl. now apply rfind_aux_absent.
Qed.

Lemma str_take_app (pre s : string) : str_take (String.length pre) (pre ++ s) = pre.
Proof. induction pre as [|c pre IH]; cbn; [now destruct s | now rewrite IH]. Qed.

Lemma str_drop_app (pre post : string) (c : ascii) :
  str_drop (String.length pre + 1) (pre ++ String c post) = post.
Proof. induction pre as [|d pre IH]; cbn; [reflexivity | exact IH]. Qed.

(** [parse_str] on an input without underscore. *)
Lemma parse_str_no_underscore {T : Type} (U : UuidType T) (s : string) :
  ~ In "_"%char (list_ascii_of_string s) ->
  parse_str U s = Some (Err (InvalidFormat no_underscore_msg)).
Proof.
  intros Hn. unfold parse_str, rfind. now rewrite rfind_aux_absent.
Qed.

(** [parse_str] on an input split at its last underscore. *)
Lemma parse_str_split {T : Type} (U : UuidType T) (pre post : string) :
  ~ In "_"%char (list_ascii_of_string post) ->
  parse_str U (pre ++ String "_" post) =
  Some (match Uuid.parse_str post with
        | Err e => Err (ParseError (Uuid.error_to_string e))
        | Ok u =>
            match from_discriminant U (nth 0 u 0) with
            | None => Err (InvalidDiscriminant (nth 0 u 0) (type_name U))
            | Some t =>
                if String.eqb pre (prefix U t)
                then Ok (mkUserFriendly (mkTypedUuid u))
                else Err (UnknownPrefix pre (type_name U))
            end
        end).
Proof.
  intros Hn. unfold parse_str. rewrite rfind_last by exact Hn.
  rewrite str_take_app, str_drop_app.
  destruct (Uuid.parse_str post) as [u|e]; [|reflexivity].
  unfold from_uuid, variant_type.
  destruct (from_discriminant U (nth 0 u 0)) as [t|] eqn:E; [|reflexivity].
  cbn [inner]. rewrite E.
  now destruct (String.eqb pre (prefix U t)).
Qed.

(** ** Deciding side conditions on concrete values *)
Lemma bytes_of_check (l : list Z) :
  forallb is_byte l = true -> Forall (fun b => 0 <= b < 256) l.
Proof.
  intros H. apply Forall_forall. intros b Hb.
  rewrite forallb_forall in H. specialize (H b Hb).
  unfold is_byte in H. apply andb_prop in H as [H1 H2].
  apply Z.leb_le in H1. apply Z.ltb_lt in H2. lia.
Qed.

Lemma no_underscore_of_check (s : string) :
  forallb (fun c => negb (Ascii.eqb c "_")) (list_ascii_of_string s) = true ->
  ~ In "_"%char (list_ascii_of_string s).
Proof.
  intros H Hin. rewrite forallb_forall in H. specialize (H _ Hin).
  rewrite Ascii.eqb_refl in H. discriminate.
Qed.

Lemma snake_nonempty (c : ascii) (r : string) : Derive.to_snake_case (String c r) <> EmptyString.
Proof.
  unfold Derive.to_snake_case.
  pose proof (snake_fold_inv (list_ascii_of_string (String c r)) [] EmptyString) as H.
  cbn [app List.length rev hd_error String.append] in H. rewrite H.
  cbn [list_ascii_of_string snake_case_spec].
  destruct (Derive.is_uppercase c); discriminate.
Qed.

(** ** Claims *)

(** C1: [TypedUuid::new(t)], for any 16 random bytes, stores [discriminant(t)]
    in byte 0, [variant_type] gives back [t] (for a category set whose
    [from_discriminant] inverts [discriminant] at [t]), the high nibble of
    byte 6 is 8 and the top two bits of byte 8 are [10]. *)
Theorem new_tags_and_v8 {T : Type} (U : UuidType T) (t : T) (rnd : list Z)
    (Hlen : List.length rnd = 16%nat)
    (Hlaw : from_discriminant U (discriminant U t) = Some t) :
  nth 0 (as_bytes U (new U t rnd)) 0 = discriminant U t /\
  variant_type U (new U t rnd) = Some t /\
  Z.shiftr (nth 6 (as_bytes U (new U t rnd)) 0) 4 = 8 /\
  Z.shiftr (nth 8 (as_bytes U (new U t rnd)) 0) 6 = 2.
Proof.
  destruct (new_bytes U t rnd Hlen)
    as (b1 & b2 & b3 & b4 & b5 & b6 & b7 & b8 & b9 & b10 & b11 & b12 & b13 & b14 & b15 & E).
  unfold as_bytes, variant_type. rewrite E. cbn [nth].
  split; [reflexivity|]. split; [exact Hlaw|].
  split; [apply version_nibble | apply variant_bits].
Qed.

Lemma new_tags_and_v8_witness :
  List.length sample_rnd = 16%nat /\
  from_discriminant UserTypeU (discriminant UserTypeU Organization) = Some Organization /\
  (nth 0 (as_bytes UserTypeU (new UserTypeU Organization sample_rnd)) 0
     = discriminant UserTypeU Organization /\
   variant_type UserTypeU (new UserTypeU Organization sample_rnd) = Some Organization /\
   Z.shiftr (nth 6 (as_bytes UserTypeU (new UserTypeU Organization sample_rnd)) 0) 4 = 8 /\
   Z.shiftr (nth 8 (as_bytes UserTypeU (new UserTypeU Organization sample_rnd)) 0) 6 = 2).
Proof.
  split; [reflexivity|]. split; [vm_compute; reflexivity|].
  apply new_tags_and_v8; vm_compute; reflexivity.
Defined.

(** C2: [from_uuid(u)] is [Ok] exactly when [from_discriminant(u[0])] is
    [Some], whatever the other bytes (no version or variant check); an [Ok]
    keeps the 16 bytes; otherwise the error is [InvalidDiscriminant] with
    byte 0 and the type name. *)
Theorem from_uuid_checks_tag_only {T : Type} (U : UuidType T) (u : list Z) :
  ((exists x, from_uuid U u = Ok x) <-> from_discriminant U (nth 0 u 0) <> None) /\
  (forall x, from_uuid U u = Ok x -> as_bytes U x = u) /\
  (from_discriminant U (nth 0 u 0) = None ->
   from_uuid U u = Err (InvalidDiscriminant (nth 0 u 0) (type_name U))).
Proof.
  unfold from_uuid, as_bytes.
  destruct (from_discriminant U (nth 0 u 0)) as [t|].
  - split; [split; [intros _; discriminate | intros _; eexists; reflexivity]|].
    split; [intros x Hx; injection Hx as <-; reflexivity | discriminate].
  - split; [split; [intros [x Hx]; discriminate | intros H; contradiction]|].
    split; [intros x Hx; discriminate | reflexivity].
Qed.

(** C3: for an enum with cases [case_0 ... case_{n-1}] (distinct names, as
    Rust requires) for which the generator succeeds, [n <= 256],
    [discriminant(case_i) = i], [from_discriminant(i) = Some case_i], and
    [from_discriminant(b) = None] for every byte [b >= n]. *)
Theorem derived_discriminant_laws (input : Derive.DeriveInput) (g : Derive.GeneratedImpl)
    (vs : list Derive.Variant)
    (Hdata : Derive.data input = Derive.DataEnum vs)
    (Hok : Derive.impl_uuid_type input = Ok g)
    (Hnd : NoDup (List.map Derive.ident vs)) :
  (List.length vs <= 256)%nat /\
  (forall i v, nth_error vs i = Some v ->
     Derive.gen_discriminant g (Derive.ident v) = Some (Z.of_nat i) /\
     Derive.gen_from_discriminant g (Z.of_nat i) = Some (Derive.ident v)) /\
  (forall b, Z.of_nat (List.length vs) <= b < 256 -> Derive.gen_from_discriminant g b = None).
Proof.
  destruct (impl_uuid_type_ok input g vs Hdata Hok) as (Hn & Hd & Hf).
  split; [lia|]. split.
  - intros i v Hv. unfold Derive.gen_discriminant, Derive.gen_from_discriminant.
    rewrite Hd, Hf. split.
    + apply (discriminant_arms_lookup vs 0 i v); (assumption || lia).
    + apply (from_discriminant_arms_lookup vs 0 i v); (assumption || lia).
  - intros b Hb. unfold Derive.gen_from_discriminant. rewrite Hf.
    apply from_discriminant_arms_miss; cbn; lia.
Qed.

Lemma derived_discriminant_laws_witness :
  Derive.data UserType_input =
    Derive.DataEnum [unit_case "Retail"; unit_case "Business"; prefixed_case "Organization" "org"] /\
  Derive.impl_uuid_type UserType_input = Ok (generated UserType_input) /\
  NoDup (List.map Derive.ident
           [unit_case "Retail"; unit_case "Business"; prefixed_case "Organization" "org"]) /\
  ((List.length [unit_case "Retail"; unit_case "Business"; prefixed_case "Organization" "org"]
      <= 256)%nat /\
   (forall i v, nth_error [unit_case "Retail"; unit_case "Business";
                           prefixed_case "Organization" "org"] i = Some v ->
      Derive.gen_discriminant (generated UserType_input) (Derive.ident v) = Some (Z.of_nat i) /\
      Derive.gen_from_discriminant (generated UserType_input) (Z.of_nat i)
        = Some (Derive.ident v)) /\
   (forall b, Z.of_nat (List.length [unit_case "Retail"; unit_case "Business";
                                     prefixed_case "Organization" "org"]) <= b < 256 ->
      Derive.gen_from_discriminant (generated UserType_input) b = None)).
Proof.
  split; [reflexivity|]. split; [vm_compute; reflexivity|].
  assert (Hnd : NoDup (List.map Derive.ident
           [unit_case "Retail"; unit_case "Business"; prefixed_case "Organization" "org"])).
  { vm_compute.
    repeat (apply NoDup_cons; [cbn; intuition discriminate|]).
    apply NoDup_nil. }
  split; [exact Hnd|].
  apply (derived_discriminant_laws UserType_input); [reflexivity | vm_compute; reflexivity | exact Hnd].
Defined.

(** C4: [to_snake_case] is the specification's rule ([snake_case_spec]) on
    every input, and maps the specification's test table as listed. *)
Theorem to_snake_case_rule :
  (forall s, Derive.to_snake_case s = snake_case_spec None (list_ascii_of_string s)) /\
  List.map Derive.to_snake_case
    ["Retail"; "Business"; "Enterprise"; "HTTPServer"; "HTTPSProxy"; "HTTPSClient";
     "TCPSocket"; "UDPPacket"; "JSONParser"; "XMLEncoder"; "TheOnlyOne";
     "XMLParser"; "JSONEncoder"]
  = ["retail"; "business"; "enterprise"; "http_server"; "https_proxy"; "https_client";
     "tcp_socket"; "udp_packet"; "json_parser"; "xml_encoder"; "the_only_one";
     "xml_parser"; "json_encoder"].
Proof.
  split.
  - intros s. unfold Derive.to_snake_case.
    pose proof (snake_fold_inv (list_ascii_of_string s) [] EmptyString) as H.
    cbn [app List.length rev hd_error String.append] in H. exact H.
  - vm_compute. reflexivity.
Qed.

(** C5 (as stated): the input without underscore of scenario S6 fails with
    an [InvalidFormat] whose message is not ["expected prefix_uuid"]. *)
Lemma parse_str_no_underscore_message :
  parse_str UserTypeU "retail550e8400-e29b-41d4-a716-446655440000"
  <> Some (Err (InvalidFormat "expected prefix_uuid")).
Proof. vm_compute. discriminate. Qed.

(** C5 (amended): [parse_str] on an input without underscore fails with
    [InvalidFormat("expected format 'prefix_uuid', no underscore found")];
    otherwise, split at the last underscore into [pre] and [post], a failure
    of the UUID parser on [post] is [ParseError], an unknown byte 0 is
    [InvalidDiscriminant], a [pre] different from the recovered category's
    prefix is [UnknownPrefix(pre, type_name)], and the parse succeeds with the
    parsed bytes otherwise; it never panics. *)
Theorem parse_str_sequence {T : Type} (U : UuidType T) (s : string) :
  (~ In "_"%char (list_ascii_of_string s) ->
   parse_str U s =
     Some (Err (InvalidFormat "expected format 'prefix_uuid', no underscore found"))) /\
  (forall pre post, s = pre ++ String "_" post ->
   ~ In "_"%char (list_ascii_of_string post) ->
   parse_str U s =
   Some (match Uuid.parse_str post with
         | Err e => Err (ParseError (Uuid.error_to_string e))
         | Ok u =>
             match from_discriminant U (nth 0 u 0) with
             | None => Err (InvalidDiscriminant (nth 0 u 0) (type_name U))
             | Some t =>
                 if String.eqb pre (prefix U t)
                 then Ok (mkUserFriendly (mkTypedUuid u))
                 else Err (UnknownPrefix pre (type_name U))
             end
         end)).
Proof.
  split.
  - apply parse_str_no_underscore.
  - intros pre post -> Hn. now apply parse_str_split.
Qed.

(** C6: for a typed identifier whose 16 bytes carry a valid discriminant,
    the [UserFriendlyUuid] rendering is ["<prefix>_<uuid-36>"] and parsing
    it back succeeds with the same 16 bytes, whatever the prefix (including
    underscores). *)
Theorem friendly_roundtrip {T : Type} (U : UuidType T) (x : TypedUuid U) (t : T)
    (Hlen : List.length (inner x) = 16%nat)
    (Hbytes : Forall (fun b => 0 <= b < 256) (inner x))
    (Hdisc : from_discriminant U (nth 0 (inner x) 0) = Some t) :
  friendly_to_string U (from_typed_uuid U x) =
    Some (prefix U t ++ String "_" (typed_to_string U x)) /\
  exists y, parse_str U (prefix U t ++ String "_" (typed_to_string U x)) = Some (Ok y) /\
            as_bytes U (typed_uuid y) = as_bytes U x.
Proof.
  split.
  - unfold friendly_to_string, friendly_prefix, from_typed_uuid, variant_type.
    cbn [typed_uuid]. rewrite Hdisc. reflexivity.
  - rewrite parse_str_split by (apply encode_no_underscore; exact Hbytes).
    unfold typed_to_string. rewrite parse_encode by assumption.
    rewrite Hdisc, String.eqb_refl. eexists. split; reflexivity.
Qed.

Lemma friendly_roundtrip_witness :
  List.length (inner (new DocumentTypeU PurchaseOrder sample_rnd)) = 16%nat /\
  Forall (fun b => 0 <= b < 256) (inner (new DocumentTypeU PurchaseOrder sample_rnd)) /\
  from_discriminant DocumentTypeU (nth 0 (inner (new DocumentTypeU PurchaseOrder sample_rnd)) 0)
    = Some PurchaseOrder /\
  (friendly_to_string DocumentTypeU
     (from_typed_uuid DocumentTypeU (new DocumentTypeU PurchaseOrder sample_rnd)) =
   Some (prefix DocumentTypeU PurchaseOrder ++
         String "_" (typed_to_string DocumentTypeU (new DocumentTypeU PurchaseOrder sample_rnd))) /\
   exists y, parse_str DocumentTypeU
               (prefix DocumentTypeU PurchaseOrder ++
                String "_" (typed_to_string DocumentTypeU (new DocumentTypeU PurchaseOrder sample_rnd)))
             = Some (Ok y) /\
           as_bytes DocumentTypeU (typed_uuid y)
             = as_bytes DocumentTypeU (new DocumentTypeU PurchaseOrder sample_rnd)).
Proof.
  assert (Hb : Forall (fun b => 0 <= b < 256) (inner (new DocumentTypeU PurchaseOrder sample_rnd)))
    by (apply bytes_of_check; vm_compute; reflexivity).
  split; [vm_compute; reflexivity|]. split; [exact Hb|].
  split; [vm_compute; reflexivity|].
  apply friendly_roundtrip; [vm_compute; reflexivity | exact Hb | vm_compute; reflexivity].
Defined.

(** C7: for a typed identifier whose 16 bytes carry a valid discriminant,
    parsing its 36-character rendering with [FromStr] gives it back. *)
Theorem typed_roundtrip {T : Type} (U : UuidType T) (x : TypedUuid U)
    (Hlen : List.length (inner x) = 16%nat)
    (Hbytes : Forall (fun b => 0 <= b < 256) (inner x))
    (Hdisc : from_discriminant U (nth 0 (inner x) 0) <> None) :
  String.length (typed_to_string U x) = 36%nat /\
  typed_from_str U (typed_to_string U x) = Ok x.
Proof.
  split.
  - destruct x as [u]. cbn [inner] in *. destruct_16 u. reflexivity.
  - unfold typed_from_str, typed_to_string. rewrite parse_encode by assumption.
    unfold from_uuid. destruct (from_discriminant U (nth 0 (inner x) 0)); [|contradiction].
    now destruct x.
Qed.

Lemma typed_roundtrip_witness :
  List.length (inner (new UserTypeU Business sample_rnd)) = 16%nat /\
  Forall (fun b => 0 <= b < 256) (inner (new UserTypeU Business sample_rnd)) /\
  from_discriminant UserTypeU (nth 0 (inner (new UserTypeU Business sample_rnd)) 0) <> None /\
  (String.length (typed_to_string UserTypeU (new UserTypeU Business sample_rnd)) = 36%nat /\
   typed_from_str UserTypeU (typed_to_string UserTypeU (new UserTypeU Business sample_rnd))
     = Ok (new UserTypeU Business sample_rnd)).
Proof.
  assert (Hb : Forall (fun b => 0 <= b < 256) (inner (new UserTypeU Business sample_rnd)))
    by (apply bytes_of_check; vm_compute; reflexivity).
  assert (Hd : from_discriminant UserTypeU (nth 0 (inner (new UserTypeU Business sample_rnd)) 0)
               <> None) by (vm_compute; discriminate).
  split; [vm_compute; reflexivity|]. split; [exact Hb|]. split; [exact Hd|].
  apply typed_roundtrip; [vm_compute; reflexivity | exact Hb | exact Hd].
Defined.

(** C8: at the wire level a [TypedUuid] is serialized exactly as its inner
    UUID and deserialized by reading a UUID and then running [from_uuid],
    its error turned into a custom deserialization error; a
    [UserFriendlyUuid] is serialized as its rendered string, which is never
    the serialization of a bare UUID, and deserialized by reading a string
    and running [parse_str], its error lifted the same way. *)
Theorem serde_wire_forms {T : Type} (U : UuidType T) :
  (forall hr x, Serde.typed_serialize U hr x = Serde.uuid_serialize hr (inner x)) /\
  (forall hr v,
     Serde.typed_deserialize U hr v =
     match Serde.uuid_deserialize hr v with
     | Err e => Err e
     | Ok u => map_err (fun e => Serde.custom (error_to_string e)) (from_uuid U u)
     end) /\
  (forall hr y s, friendly_to_string U y = Some s ->
     Serde.friendly_serialize U hr y = Some (Serde.SStr s)) /\
  (forall hr y u, Forall (fun b => 0 <= b < 256) u ->
     Serde.friendly_serialize U hr y <> Some (Serde.uuid_serialize hr u)) /\
  (forall hr v,
     Serde.friendly_deserialize U hr v =
     match Serde.string_deserialize v with
     | Err e => Some (Err e)
     | Ok s => option_map (map_err (fun e => Serde.custom (error_to_string e))) (parse_str U s)
     end).
Proof.
  split; [reflexivity|]. split; [reflexivity|].
  split.
  { intros hr y s Hs. unfold Serde.friendly_serialize. now rewrite Hs. }
  split.
  - intros hr y u Hu. unfold Serde.friendly_serialize, friendly_to_string.
    destruct (friendly_prefix U y) as [p|]; [|discriminate].
    destruct hr; cbn [Serde.uuid_serialize]; [|discriminate].
    intros Heq. injection Heq as Heq.
    apply (encode_no_underscore u Hu). rewrite <- Heq.
    rewrite !list_ascii_of_string_app. apply in_app_iff. right. left. reflexivity.
  - intros hr v. unfold Serde.friendly_deserialize.
    destruct (Serde.string_deserialize v); [|reflexivity].
    now destruct (parse_str U s).
Qed.

(** C9: every [TypedUuid] obtained from [new], [from_uuid], [FromStr] or
    [Deserialize] has a byte 0 that [from_discriminant] maps to a category,
    so [variant_type] does not panic, given a category set where
    [from_discriminant] is defined on every [discriminant(t)]. *)
Theorem reachable_variant_type_total {T : Type} (U : UuidType T)
    (Hlaw : forall t, from_discriminant U (discriminant U t) <> None)
    (x : TypedUuid U) (Hx : reachable U x) :
  exists t, variant_type U x = Some t.
Proof.
  assert (Hfrom : forall u y, from_uuid U u = Ok y -> exists t, variant_type U y = Some t).
  { intros u y Hy. unfold from_uuid in Hy.
    destruct (from_discriminant U (nth 0 u 0)) as [t|] eqn:E; [|discriminate].
    injection Hy as <-. exists t. exact E. }
  destruct Hx as [t rnd Hlen | u y Hy | s y Hy | hr v y Hy].
  - destruct (new_bytes U t rnd Hlen)
      as (b1 & b2 & b3 & b4 & b5 & b6 & b7 & b8 & b9 & b10 & b11 & b12 & b13 & b14 & b15 & E).
    unfold variant_type. rewrite E. cbn [nth].
    specialize (Hlaw t). destruct (from_discriminant U (discriminant U t)) as [t'|];
      [now exists t' | contradiction].
  - exact (Hfrom u y Hy).
  - unfold typed_from_str in Hy. destruct (Uuid.parse_str s) as [u|]; [|discriminate].
    exact (Hfrom u y Hy).
  - unfold Serde.typed_deserialize in Hy.
    destruct (Serde.uuid_deserialize hr v) as [u|]; [|discriminate].
    destruct (from_uuid U u) as [y'|] eqn:E; cbn in Hy; [|discriminate].
    injection Hy as <-. exact (Hfrom u y' E).
Qed.

Lemma reachable_variant_type_total_witness :
  (forall t, from_discriminant UserTypeU (discriminant UserTypeU t) <> None) /\
  reachable UserTypeU (new UserTypeU Retail sample_rnd) /\
  exists t, variant_type UserTypeU (new UserTypeU Retail sample_rnd) = Some t.
Proof.
  assert (Hlaw : forall t, from_discriminant UserTypeU (discriminant UserTypeU t) <> None)
    by (intros []; vm_compute; discriminate).
  assert (Hr : reachable UserTypeU (new UserTypeU Retail sample_rnd))
    by (apply reach_new; reflexivity).
  split; [exact Hlaw|]. split; [exact Hr|].
  exact (reachable_variant_type_total UserTypeU Hlaw _ Hr).
Defined.

(** C10 (as stated): with a category whose override prefix is the empty
    literal, which the generator accepts, ["_" ++ uuid] parses successfully
    instead of failing with [UnknownPrefix { prefix: "" }]. *)
Lemma empty_override_prefix_parses :
  (exists g, Derive.impl_uuid_type Untagged_input = Ok g) /\
  exists y, parse_str UntaggedU "_00000000-e29b-41d4-a716-446655440000" = Some (Ok y).
Proof. split; eexists; vm_compute; reflexivity. Qed.

(** C10 (amended): on ["_" ++ h], with [h] a UUID text without underscore
    whose byte 0 is a valid discriminant, [parse_str] takes the empty string
    as the prefix part: it fails with [UnknownPrefix { prefix: "" }] when the
    recovered category's prefix is non-empty and succeeds when it is empty.
    Prefixes derived by [to_snake_case] from a (non-empty) case name are
    never empty. *)
Theorem empty_prefix_part {T : Type} (U : UuidType T) (h : string) (u : list Z) (t : T)
    (Hno : ~ In "_"%char (list_ascii_of_string h))
    (Hp : Uuid.parse_str h = Ok u)
    (Ht : from_discriminant U (nth 0 u 0) = Some t) :
  parse_str U (String "_" h) =
    Some (if String.eqb (prefix U t) EmptyString
          then Ok (mkUserFriendly (mkTypedUuid u))
          else Err (UnknownPrefix EmptyString (type_name U))) /\
  (forall id, id <> EmptyString -> Derive.to_snake_case id <> EmptyString).
Proof.
  split.
  - change (String "_" h) with (EmptyString ++ String "_" h).
    rewrite parse_str_split by exact Hno. rewrite Hp, Ht.
    now rewrite String.eqb_sym.
  - intros [|c r] Hid; [contradiction|]. apply snake_nonempty.
Qed.

Lemma empty_prefix_part_witness :
  ~ In "_"%char (list_ascii_of_string "00000000-e29b-41d4-a716-446655440000") /\
  Uuid.parse_str "00000000-e29b-41d4-a716-446655440000"
    = Ok [0; 0; 0; 0; 226; 155; 65; 212; 167; 22; 68; 102; 85; 68; 0; 0] /\
  from_discriminant UserTypeU 0 = Some Retail /\
  (parse_str UserTypeU (String "_" "00000000-e29b-41d4-a716-446655440000") =
     Some (if String.eqb (prefix UserTypeU Retail) EmptyString
           then Ok (mkUserFriendly (mkTypedUuid [0; 0; 0; 0; 226; 155; 65; 212; 167; 22; 68; 102; 85; 68; 0; 0]))
           else Err (UnknownPrefix EmptyString (type_name UserTypeU))) /\
   (forall id, id <> EmptyString -> Derive.to_snake_case id <> EmptyString)).
Proof.
  assert (Hno : ~ In "_"%char (list_ascii_of_string "00000000-e29b-41d4-a716-446655440000"))
    by (apply no_underscore_of_check; vm_compute; reflexivity).
  split; [exact Hno|]. split; [vm_compute; reflexivity|]. split; [vm_compute; reflexivity|].
  apply (empty_prefix_part UserTypeU _ _ Retail Hno); vm_compute; reflexivity.
Defined.

(** * Further properties of the code *)

(** ** Derive: helpers *)
Lemma prefix_arms_of_ok (vs : list Derive.Variant) :
  (exists arms, Derive.prefix_arms_of vs = Ok arms) <->
  (forall v, In v vs -> exists p, Derive.get_prefix_from_attrs (Derive.attrs v) = Ok p).
Proof.
  induction vs as [|w vs IH]; cbn.
  - split; [tauto | intros _; eexists; reflexivity].
  - destruct (Derive.get_prefix_from_attrs (Derive.attrs w)) as [p|e] eqn:Ew.
    + destruct (Derive.prefix_arms_of vs) as [arms|e] eqn:Evs.
      * split; [|intros _; eexists; reflexivity].
        intros _ v [<-|Hv]; [now exists p|].
        apply IH; [now exists arms | exact Hv].
      * split; [intros [arms H]; discriminate|].
        intros H. destruct IH as [_ IH]. destruct IH as [arms Harms]; [|discriminate].
        intros v Hv. apply H. now right.
    + split; [intros [arms H]; discriminate|].
      intros H. destruct (H w (or_introl eq_refl)) as [p Hp]. congruence.
Qed.

Lemma prefix_arms_of_map (vs : list Derive.Variant) (arms : list (string * string)) :
  Derive.prefix_arms_of vs = Ok arms ->
  Forall2 (fun v a => exists p, Derive.get_prefix_from_attrs (Derive.attrs v) = Ok p /\
             a = (Derive.ident v, match p with Some q => q | None => Derive.to_snake_case (Derive.ident v) end))
          vs arms.
Proof.
  revert arms; induction vs as [|w vs IH]; intros arms H; cbn in H.
  - injection H as <-. constructor.
  - destruct (Derive.get_prefix_from_attrs (Derive.attrs w)) as [p|e] eqn:Ew; [|discriminate].
    destruct (Derive.prefix_arms_of vs) as [arms'|e] eqn:Evs; [|discriminate].
    injection H as <-. constructor; [now exists p | now apply IH].
Qed.

Lemma prefix_arms_lookup (vs : list Derive.Variant) (arms : list (string * string))
    (i : nat) (v : Derive.Variant) (p : option string) :
  Forall2 (fun v a => exists p, Derive.get_prefix_from_attrs (Derive.attrs v) = Ok p /\
             a = (Derive.ident v, match p with Some q => q | None => Derive.to_snake_case (Derive.ident v) end))
          vs arms ->
  NoDup (List.map Derive.ident vs) -> nth_error vs i = Some v ->
  Derive.get_prefix_from_attrs (Derive.attrs v) = Ok p ->
  Derive.match_arms String.eqb arms (Derive.ident v) =
    Some (match p with Some q => q | None => Derive.to_snake_case (Derive.ident v) end).
Proof.
  intros HF. revert i. induction HF as [|w a vs arms [q [Hq ->]] HF IH]; intros i Hnd Hnth Hp.
  - destruct i; discriminate.
  - inversion Hnd as [|? ? Hnotin Hnd']; subst. cbn [Derive.match_arms].
    destruct i as [|i]; cbn in Hnth.
    + injection Hnth as <-. rewrite String.eqb_refl. rewrite Hq in Hp. injection Hp as ->. reflexivity.
    + destruct (String.eqb (Derive.ident w) (Derive.ident v)) eqn:He.
      * apply String.eqb_eq in He. exfalso. apply Hnotin. rewrite He.
        apply in_map. eapply nth_error_In. exact Hnth.
      * now apply (IH i).
Qed.

Lemma parse_nested_meta_prefixes (pre : list string) (p : string) (st : option string * option Derive.CompileError) :
  Derive.parse_nested_meta
    (List.map (fun q => Derive.Meta "prefix" (Derive.EqLit (Derive.LitStr q))) (pre ++ [p])) st
  = Ok (Some p, snd st).
Proof.
  revert st; induction pre as [|q pre IH]; intros [a b]; cbn; [reflexivity|].
  apply IH.
Qed.

Lemma is_unit_iff (v : Derive.Variant) : Derive.is_unit v = true <-> Derive.fields v = Derive.FieldsUnit.
Proof. unfold Derive.is_unit. destruct (Derive.fields v); split; congruence. Qed.

Lemma forallb_is_unit (vs : list Derive.Variant) :
  forallb Derive.is_unit vs = true <-> Forall (fun v => Derive.fields v = Derive.FieldsUnit) vs.
Proof.
  rewrite forallb_forall, Forall_forall. split; intros H v Hv; apply is_unit_iff; auto.
Qed.

Lemma parse_nested_meta_wf_prefix (pre ms : list Derive.MetaItem) (st : option string * option Derive.CompileError) :
  Forall (fun m => (exists q, m = Derive.Meta "prefix" (Derive.EqLit (Derive.LitStr q))) \/
                   (exists k' v', m = Derive.Meta k' v' /\ k' <> "prefix" /\ v' <> Derive.Parens)) pre ->
  exists st', Derive.parse_nested_meta (pre ++ ms) st = Derive.parse_nested_meta ms st'.
Proof.
  intros Hpre. revert st. induction Hpre as [|m pre Hm Hpre IH]; intros [a b].
  - exists (a, b). reflexivity.
  - destruct Hm as [[q ->] | (k' & v' & -> & Hk & Hv)].
    + cbn. apply IH.
    + cbn [app Derive.parse_nested_meta]. apply String.eqb_neq in Hk. rewrite Hk.
      destruct v'; [apply IH | apply IH | contradiction].
Qed.

Lemma parse_nested_meta_prefix_items (post : list Derive.MetaItem) (a : option string) (e : option Derive.CompileError) :
  Forall (fun m => exists q, m = Derive.Meta "prefix" (Derive.EqLit (Derive.LitStr q))) post ->
  exists a', Derive.parse_nested_meta post (a, e) = Ok (a', e).
Proof.
  intros Hpost. revert a. induction Hpost as [|m post [q ->] Hpost IH]; intros a.
  - exists a. reflexivity.
  - cbn. apply IH.
Qed.

(** ** Snake case: general facts of the rule *)
Lemma snake_eq (s : string) : Derive.to_snake_case s = snake_case_spec None (list_ascii_of_string s).
Proof.
  unfold Derive.to_snake_case.
  pose proof (snake_fold_inv (list_ascii_of_string s) [] EmptyString) as H.
  cbn [app List.length rev hd_error String.append] in H. exact H.
Qed.


Lemma lower_underscore (c : ascii) : Ascii.eqb (Derive.to_lowercase c) "_" = Ascii.eqb c "_".
Proof. destruct c as [[] [] [] [] [] [] [] []]; reflexivity. Qed.



Lemma snake_spec_no_upper (prev : option ascii) (l : list ascii) :
  Forall (fun c => Derive.is_uppercase c = false) l -> snake_case_spec prev l = string_of_list_ascii l.
Proof.
  intros Hl. revert prev. induction Hl as [|c l Hc Hl IH]; intros prev; [reflexivity|].
  cbn [snake_case_spec]. rewrite Hc. cbn. now rewrite IH.
Qed.




(** ** UUID parsing yields sixteen bytes *)
Lemma hex_val_range (c : ascii) (h : Z) : Uuid.hex_val c = Some h -> 0 <= h < 16.
Proof.
  unfold Uuid.hex_val.
  repeat match goal with |- context [if ?b then _ else _] => destruct b eqn:? end;
  intros H; try discriminate; injection H as <-;
  repeat match goal with Hb : _ && _ = true |- _ => apply andb_prop in Hb as [? ?] end;
  repeat match goal with Hb : (_ <=? _) = true |- _ => apply Z.leb_le in Hb end; lia.
Qed.

Lemma nibble_cases (P : Z -> Prop) :
  (forall n, In n (seq 0 16) -> P (Z.of_nat n)) -> forall h, 0 <= h < 16 -> P h.
Proof.
  intros H h Hh. rewrite <- (Z2Nat.id h) by lia. apply H. apply in_seq. lia.
Qed.

Lemma lor_nibbles_range (a b : Z) : 0 <= a < 16 -> 0 <= b < 16 -> 0 <= Z.lor (Z.shiftl a 4) b < 256.
Proof.
  intros Ha Hb. revert a Ha.
  apply (nibble_cases (fun a => 0 <= Z.lor (Z.shiftl a 4) b < 256)). intros n Hn.
  revert b Hb. apply (nibble_cases (fun b => 0 <= Z.lor (Z.shiftl (Z.of_nat n) 4) b < 256)).
  intros m Hm.
  assert (Hc : forallb (fun n => forallb (fun m =>
                 let z := Z.lor (Z.shiftl (Z.of_nat n) 4) (Z.of_nat m) in (0 <=? z) && (z <? 256))
                 (seq 0 16)) (seq 0 16) = true) by (vm_compute; reflexivity).
  rewrite forallb_forall in Hc. specialize (Hc n Hn). rewrite forallb_forall in Hc.
  specialize (Hc m Hm). cbv zeta in Hc. apply andb_prop in Hc as [H1 H2].
  apply Z.leb_le in H1. apply Z.ltb_lt in H2. lia.
Qed.

Lemma pair_val_range (c1 c2 : option ascii) (b : Z) : Uuid.pair_val c1 c2 = Some b -> 0 <= b < 256.
Proof.
  unfold Uuid.pair_val. destruct c1 as [a|], c2 as [d|]; try discriminate.
  destruct (Uuid.hex_val a) as [h1|] eqn:E1, (Uuid.hex_val d) as [h2|] eqn:E2; try discriminate.
  intros H; injection H as <-. apply lor_nibbles_range; eapply hex_val_range; eassumption.
Qed.

Lemma decode_groups_bytes (s : string) (ps : list nat) (l : list Z) :
  Uuid.decode_groups s ps = Some l ->
  List.length l = (2 * List.length ps)%nat /\ Forall (fun b => 0 <= b < 256) l.
Proof.
  revert l; induction ps as [|i ps IH]; intros l H; cbn [Uuid.decode_groups] in H.
  - injection H as <-. split; [reflexivity | constructor].
  - destruct (Uuid.pair_val (get i s) (get (i + 1)%nat s)) as [a|] eqn:Ea; [|discriminate].
    destruct (Uuid.pair_val (get (i + 2)%nat s) (get (i + 3)%nat s)) as [b|] eqn:Eb; [|discriminate].
    destruct (Uuid.decode_groups s ps) as [rest|] eqn:Er; [|discriminate].
    injection H as <-. destruct (IH rest eq_refl) as [Hl Hf].
    split; [cbn [List.length]; lia|].
    constructor; [eapply pair_val_range; exact Ea|].
    constructor; [eapply pair_val_range; exact Eb|exact Hf].
Qed.

Lemma parse_hyphenated_bytes (s : string) (u : list Z) :
  Uuid.parse_hyphenated s = Some u -> List.length u = 16%nat /\ Forall (fun b => 0 <= b < 256) u.
Proof.
  unfold Uuid.parse_hyphenated. intros H.
  repeat match type of H with context [match ?x with _ => _ end] => destruct x eqn:? end;
    try discriminate.
  apply decode_groups_bytes in H. exact H.
Qed.

Lemma parse_simple_bytes (s : string) (u : list Z) :
  Uuid.parse_simple s = Some u -> List.length u = 16%nat /\ Forall (fun b => 0 <= b < 256) u.
Proof. unfold Uuid.parse_simple. intros H. apply decode_groups_bytes in H. exact H. Qed.

Lemma uuid_parse_str_bytes (s : string) (u : list Z) :
  Uuid.parse_str s = Ok u -> List.length u = 16%nat /\ Forall (fun b => 0 <= b < 256) u.
Proof.
  unfold Uuid.parse_str. intros H.
  lazymatch type of H with (match ?r with _ => _ end) = _ => destruct r as [l|] eqn:E end;
    [|discriminate].
  injection H as <-. revert E.
  repeat match goal with |- context [match ?x with _ => _ end] => destruct x eqn:?; cbv beta iota end;
    intros E; try discriminate;
    first [exact (parse_simple_bytes _ _ E) | exact (parse_hyphenated_bytes _ _ E)].
Qed.

(** ** [rfind]: a found index splits the input at its last occurrence *)
Lemma rfind_aux_some (c : ascii) (s : string) (i : nat) (acc : option nat) (n : nat) :
  rfind_aux c s i acc = Some n ->
  (acc = Some n /\ ~ In c (list_ascii_of_string s)) \/
  (exists pre post, s = pre ++ String c post /\ n = (i + String.length pre)%nat /\
                    ~ In c (list_ascii_of_string post)).
Proof.
  revert i acc; induction s as [|d r IH]; intros i acc H; cbn in H.
  - left. split; [exact H | cbn; tauto].
  - destruct (IH _ _ H) as [[Ha Hn] | (pre & post & -> & -> & Hn)].
    + destruct (Ascii.eqb c d) eqn:E.
      * apply Ascii.eqb_eq in E; subst d. injection Ha as <-. right.
        exists EmptyString, r. cbn. split; [reflexivity|split; [lia|exact Hn]].
      * apply Ascii.eqb_neq in E. left. split; [exact Ha|].
        cbn. intros [He|He]; [congruence|contradiction].
    + right. exists (String d pre), post. cbn. split; [reflexivity|split; [lia|exact Hn]].
Qed.

Lemma rfind_some_split (s : string) (n : nat) :
  rfind "_" s = Some n ->
  exists pre post, s = pre ++ String "_" post /\ n = String.length pre /\
                   ~ In "_"%char (list_ascii_of_string post).
Proof.
  unfold rfind. intros H.
  destruct (rfind_aux_some _ _ _ _ _ H) as [[Ha _] | (pre & post & Hs & Hn & Hp)]; [discriminate|].
  exists pre, post. auto.
Qed.

(** ** Digits of the hyphenated form, and the bits [new] writes *)
Lemma hex_lower (b : Z) :
  0 <= b < 256 ->
  is_lower_hex (Uuid.hex_digit (Z.shiftr b 4)) = true /\
  is_lower_hex (Uuid.hex_digit (Z.land b 15)) = true.
Proof.
  revert b. apply byte_range_cases. intros n Hn.
  assert (Hc : forallb (fun n => is_lower_hex (Uuid.hex_digit (Z.shiftr (Z.of_nat n) 4))
                          && is_lower_hex (Uuid.hex_digit (Z.land (Z.of_nat n) 15)))
                 (seq 0 256) = true) by (vm_compute; reflexivity).
  rewrite forallb_forall in Hc. specialize (Hc n Hn).
  apply andb_prop in Hc. exact Hc.
Qed.

Lemma version_byte_range (b : Z) : 0 <= b < 256 -> 0 <= Z.lor (Z.land b 15) (Z.shiftl 8 4) < 256.
Proof.
  revert b. apply byte_range_cases. intros n Hn.
  assert (Hc : forallb (fun n => let z := Z.lor (Z.land (Z.of_nat n) 15) (Z.shiftl 8 4) in
                          (0 <=? z) && (z <? 256)) (seq 0 256) = true) by (vm_compute; reflexivity).
  rewrite forallb_forall in Hc. specialize (Hc n Hn). cbv zeta in Hc.
  apply andb_prop in Hc as [H1 H2]. apply Z.leb_le in H1. apply Z.ltb_lt in H2. lia.
Qed.

Lemma variant_byte_range (b : Z) : 0 <= b < 256 -> 0 <= Z.lor (Z.land b 63) 128 < 256.
Proof.
  revert b. apply byte_range_cases. intros n Hn.
  assert (Hc : forallb (fun n => let z := Z.lor (Z.land (Z.of_nat n) 63) 128 in
                          (0 <=? z) && (z <? 256)) (seq 0 256) = true) by (vm_compute; reflexivity).
  rewrite forallb_forall in Hc. specialize (Hc n Hn). cbv zeta in Hc.
  apply andb_prop in Hc as [H1 H2]. apply Z.leb_le in H1. apply Z.ltb_lt in H2. lia.
Qed.

Lemma land_lor_low (b m c : Z) : Z.land c m = 0 -> Z.land (Z.lor (Z.land b m) c) m = Z.land b m.
Proof.
  intros Hc. rewrite Z.land_lor_distr_l, Hc, Z.lor_0_r.
  rewrite <- Z.land_assoc, Z.land_diag. reflexivity.
Qed.

Lemma new_bytes_range {T : Type} (U : UuidType T) (t : T) (rnd : list Z) :
  List.length rnd = 16%nat -> Forall (fun b => 0 <= b < 256) rnd ->
  0 <= discriminant U t < 256 ->
  List.length (inner (new U t rnd)) = 16%nat /\ Forall (fun b => 0 <= b < 256) (inner (new U t rnd)).
Proof.
  intros Hlen Hb Hd. destruct_16 rnd.
  repeat match goal with H : Forall _ (_ :: _) |- _ => inversion_clear H end.
  unfold new, Uuid.new_v8. cbn [set_nth nth inner].
  split; [reflexivity|].
  repeat (constructor; [first [assumption | apply version_byte_range; assumption
                               | apply variant_byte_range; assumption]|]).
  constructor.
Qed.

(** ** The derive macro *)

(** [impl_uuid_type] emits an implementation exactly for an enum whose
    cases are all unit cases, with 1 to 256 cases, each of whose attribute
    lists [get_prefix_from_attrs] accepts. *)
Theorem impl_uuid_type_accepts (input : Derive.DeriveInput) :
  (exists g, Derive.impl_uuid_type input = Ok g) <->
  exists vs, Derive.data input = Derive.DataEnum vs /\
    Forall (fun v => Derive.fields v = Derive.FieldsUnit) vs /\
    (1 <= List.length vs <= 256)%nat /\
    (forall v, In v vs -> exists p, Derive.get_prefix_from_attrs (Derive.attrs v) = Ok p).
Proof.
  unfold Derive.impl_uuid_type.
  destruct (Derive.data input) as [vs| |].
  - destruct (forallb Derive.is_unit vs) eqn:Hu; cbn [negb].
    + apply forallb_is_unit in Hu.
      destruct (List.length vs =? 0)%nat eqn:H0.
      * apply Nat.eqb_eq in H0. split; [intros [g Hg]; discriminate|].
        intros (ws & Hws & _ & Hl & _). injection Hws as <-. lia.
      * apply Nat.eqb_neq in H0. destruct (256 <? List.length vs)%nat eqn:H1.
        -- apply Nat.ltb_lt in H1. split; [intros [g Hg]; discriminate|].
           intros (ws & Hws & _ & Hl & _). injection Hws as <-. lia.
        -- apply Nat.ltb_ge in H1. split.
           ++ intros [g Hg]. destruct (Derive.prefix_arms_of vs) as [arms|e] eqn:Ep; [|discriminate].
              exists vs. split; [reflexivity|]. split; [exact Hu|]. split; [lia|].
              apply prefix_arms_of_ok. now exists arms.
           ++ intros (ws & Hws & _ & _ & Hp). injection Hws as <-.
              destruct (proj2 (prefix_arms_of_ok vs) Hp) as [arms ->].
              eexists. reflexivity.
    + split; [intros [g Hg]; discriminate|].
      intros (ws & Hws & Hf & _). injection Hws as <-.
      apply forallb_is_unit in Hf. congruence.
  - split; [intros [g Hg]; discriminate | intros (ws & Hws & _); discriminate].
  - split; [intros [g Hg]; discriminate | intros (ws & Hws & _); discriminate].
Qed.

(** The checks of [impl_uuid_type] run in the order of the source: a
    struct or union is refused first; a case with fields is reported before
    the size checks and the attributes are looked at; an empty enum and one
    with more than 256 cases are refused before any attribute is parsed; and
    among the attribute errors, that of the first offending case is the one
    reported. *)
Theorem impl_uuid_type_rejections (name : string) (vs : list Derive.Variant) :
  Derive.impl_uuid_type {| Derive.input_ident := name; Derive.data := Derive.DataStruct |}
    = Err "UuidType can only be derived for enums" /\
  Derive.impl_uuid_type {| Derive.input_ident := name; Derive.data := Derive.DataUnion |}
    = Err "UuidType can only be derived for enums" /\
  ((exists v, In v vs /\ Derive.fields v <> Derive.FieldsUnit) ->
   Derive.impl_uuid_type {| Derive.input_ident := name; Derive.data := Derive.DataEnum vs |}
   = Err "UuidType can only be derived for enums with unit variants (no fields)") /\
  Derive.impl_uuid_type {| Derive.input_ident := name; Derive.data := Derive.DataEnum [] |}
    = Err "UuidType cannot be derived for empty enums (at least one variant required)" /\
  (Forall (fun v => Derive.fields v = Derive.FieldsUnit) vs -> (256 < List.length vs)%nat ->
   Derive.impl_uuid_type {| Derive.input_ident := name; Derive.data := Derive.DataEnum vs |}
   = Err "UuidType can only be derived for enums with at most 256 variants") /\
  (forall pre v post e, vs = (pre ++ v :: post)%list ->
   Forall (fun v => Derive.fields v = Derive.FieldsUnit) vs -> (List.length vs <= 256)%nat ->
   Forall (fun w => exists p, Derive.get_prefix_from_attrs (Derive.attrs w) = Ok p) pre ->
   Derive.get_prefix_from_attrs (Derive.attrs v) = Err e ->
   Derive.impl_uuid_type {| Derive.input_ident := name; Derive.data := Derive.DataEnum vs |}
   = Err e).
Proof.
  split; [reflexivity|]. split; [reflexivity|]. split.
  { intros (v & Hv & Hf). unfold Derive.impl_uuid_type. cbn [Derive.data].
    destruct (forallb Derive.is_unit vs) eqn:Hu; [|reflexivity].
    apply forallb_is_unit in Hu. rewrite Forall_forall in Hu. now apply Hu in Hv. }
  split; [reflexivity|]. split.
  { intros Hu Hl. unfold Derive.impl_uuid_type. cbn [Derive.data].
    apply forallb_is_unit in Hu. rewrite Hu. cbn [negb].
    replace (List.length vs =? 0)%nat with false by (symmetry; apply Nat.eqb_neq; lia).
    replace (256 <? List.length vs)%nat with true by (symmetry; apply Nat.ltb_lt; lia).
    reflexivity. }
  intros pre v post e -> Hu Hl Hpre He. unfold Derive.impl_uuid_type. cbn [Derive.data].
  apply forallb_is_unit in Hu. rewrite Hu. cbn [negb].
  rewrite length_app in *. cbn [List.length] in *.
  replace (List.length pre + S (List.length post) =? 0)%nat with false by (symmetry; apply Nat.eqb_neq; lia).
  replace (256 <? List.length pre + S (List.length post))%nat with false by (symmetry; apply Nat.ltb_ge; lia).
  assert (Hp : Derive.prefix_arms_of (pre ++ v :: post) = Err e).
  { clear Hu Hl. induction Hpre as [|w pre [p Hw] Hpre IH]; cbn [app Derive.prefix_arms_of].
    - now rewrite He.
    - rewrite Hw, IH. reflexivity. }
  rewrite Hp. reflexivity.
Qed.

(** For an enum the generator accepts (with distinct case names), the
    emitted [prefix] of each case is its [#[uuid_type(prefix = ...)]]
    override when there is one and the snake case of its name otherwise. *)
Theorem derived_prefix_resolution (input : Derive.DeriveInput) (g : Derive.GeneratedImpl)
    (vs : list Derive.Variant) (i : nat) (v : Derive.Variant)
    (Hdata : Derive.data input = Derive.DataEnum vs)
    (Hok : Derive.impl_uuid_type input = Ok g)
    (Hnd : NoDup (List.map Derive.ident vs))
    (Hv : nth_error vs i = Some v) :
  exists p, Derive.get_prefix_from_attrs (Derive.attrs v) = Ok p /\
    Derive.gen_prefix g (Derive.ident v) =
      Some (match p with Some q => q | None => Derive.to_snake_case (Derive.ident v) end).
Proof.
  unfold Derive.impl_uuid_type in Hok. rewrite Hdata in Hok.
  destruct (negb (forallb Derive.is_unit vs)); [discriminate|].
  destruct (List.length vs =? 0)%nat; [discriminate|].
  destruct (256 <? List.length vs)%nat; [discriminate|].
  destruct (Derive.prefix_arms_of vs) as [arms|e] eqn:Ep; [|discriminate].
  injection Hok as <-.
  destruct (proj1 (prefix_arms_of_ok vs) (ex_intro _ arms Ep) v (nth_error_In _ _ Hv)) as [p Hp].
  exists p. split; [exact Hp|].
  unfold Derive.gen_prefix. cbn [Derive.prefix_arms].
  exact (prefix_arms_lookup vs arms i v p (prefix_arms_of_map vs arms Ep) Hnd Hv Hp).
Qed.

Lemma derived_prefix_resolution_witness :
  Derive.data UserType_input =
    Derive.DataEnum [unit_case "Retail"; unit_case "Business"; prefixed_case "Organization" "org"] /\
  Derive.impl_uuid_type UserType_input = Ok (generated UserType_input) /\
  NoDup (List.map Derive.ident
           [unit_case "Retail"; unit_case "Business"; prefixed_case "Organization" "org"]) /\
  nth_error [unit_case "Retail"; unit_case "Business"; prefixed_case "Organization" "org"] 2
    = Some (prefixed_case "Organization" "org") /\
  exists p, Derive.get_prefix_from_attrs (Derive.attrs (prefixed_case "Organization" "org")) = Ok p /\
    Derive.gen_prefix (generated UserType_input) (Derive.ident (prefixed_case "Organization" "org")) =
      Some (match p with Some q => q
                    | None => Derive.to_snake_case (Derive.ident (prefixed_case "Organization" "org")) end).
Proof.
  assert (Hnd : NoDup (List.map Derive.ident
           [unit_case "Retail"; unit_case "Business"; prefixed_case "Organization" "org"])).
  { vm_compute.
    repeat (apply NoDup_cons; [cbn; intuition discriminate|]). apply NoDup_nil. }
  split; [reflexivity|]. split; [vm_compute; reflexivity|]. split; [exact Hnd|].
  split; [reflexivity|].
  apply (derived_prefix_resolution UserType_input (generated UserType_input)
           [unit_case "Retail"; unit_case "Business"; prefixed_case "Organization" "org"] 2
           (prefixed_case "Organization" "org")); [reflexivity | vm_compute; reflexivity | exact Hnd | reflexivity].
Defined.

(** [get_prefix_from_attrs] looks only at the attributes whose path is
    [uuid_type]: dropping every other attribute does not change its result. *)
Theorem get_prefix_ignores_other_attrs (attrs : list Derive.Attribute) :
  Derive.get_prefix_from_attrs attrs =
  Derive.get_prefix_from_attrs
    (filter (fun a => String.eqb (Derive.attr_path a) "uuid_type") attrs).
Proof.
  induction attrs as [|a rest IH]; [reflexivity|].
  cbn [Derive.get_prefix_from_attrs filter].
  destruct (String.eqb (Derive.attr_path a) "uuid_type") eqn:E; cbn [negb].
  - cbn [Derive.get_prefix_from_attrs]. rewrite E. cbn [negb]. now rewrite IH.
  - exact IH.
Qed.

(** In a well-formed [#[uuid_type(...)]] attribute, a key other than
    [prefix] makes the derive fail with the "unknown uuid_type attribute"
    error naming the last such key, even when a [prefix] is given as well,
    before or after it. *)
Theorem get_prefix_unknown_key (pre post : list Derive.MetaItem) (k : string)
    (v : Derive.MetaValue) (rest : list Derive.Attribute)
    (Hk : k <> "prefix") (Hv : v <> Derive.Parens)
    (Hpre : Forall (fun m => (exists q, m = Derive.Meta "prefix" (Derive.EqLit (Derive.LitStr q))) \/
                   (exists k' v', m = Derive.Meta k' v' /\ k' <> "prefix" /\ v' <> Derive.Parens)) pre)
    (Hpost : Forall (fun m => exists q, m = Derive.Meta "prefix" (Derive.EqLit (Derive.LitStr q))) post) :
  Derive.get_prefix_from_attrs
    ({| Derive.attr_path := "uuid_type"; Derive.attr_args := Some (pre ++ Derive.Meta k v :: post)%list |}
       :: rest)
  = Err (Derive.unknown_key_msg k).
Proof.
  cbn [Derive.get_prefix_from_attrs Derive.attr_path Derive.attr_args].
  rewrite String.eqb_refl. cbn [negb].
  destruct (parse_nested_meta_wf_prefix pre (Derive.Meta k v :: post) (None, None) Hpre) as [[a b] ->].
  cbn [Derive.parse_nested_meta]. apply String.eqb_neq in Hk. rewrite Hk.
  destruct (parse_nested_meta_prefix_items post a (@Some Derive.CompileError (Derive.unknown_key_msg k)) Hpost) as [a' Ha'].
  destruct v as [| |]; [| |contradiction]; cbv beta iota.
  all: match goal with |- context [Derive.parse_nested_meta ?l ?st] =>
         replace (Derive.parse_nested_meta l st) with
           (Ok (a', Some (Derive.unknown_key_msg k))
              : result (option string * option Derive.CompileError) Derive.CompileError)
           by (symmetry; exact Ha') end.
  all: destruct a'; reflexivity.
Qed.

Lemma get_prefix_unknown_key_witness :
  "name" <> "prefix" /\ Derive.NoValue <> Derive.Parens /\
  Forall (fun m => (exists q, m = Derive.Meta "prefix" (Derive.EqLit (Derive.LitStr q))) \/
                   (exists k' v', m = Derive.Meta k' v' /\ k' <> "prefix" /\ v' <> Derive.Parens))
    [Derive.Meta "prefix" (Derive.EqLit (Derive.LitStr "org"))] /\
  Forall (fun m => exists q, m = Derive.Meta "prefix" (Derive.EqLit (Derive.LitStr q)))
    [Derive.Meta "prefix" (Derive.EqLit (Derive.LitStr "biz"))] /\
  Derive.get_prefix_from_attrs
    [{| Derive.attr_path := "uuid_type";
        Derive.attr_args := Some ([Derive.Meta "prefix" (Derive.EqLit (Derive.LitStr "org"))] ++
                                  Derive.Meta "name" Derive.NoValue ::
                                  [Derive.Meta "prefix" (Derive.EqLit (Derive.LitStr "biz"))])%list |}]
  = Err (Derive.unknown_key_msg "name").
Proof.
  assert (Hk : "name" <> "prefix") by discriminate.
  assert (Hv : Derive.NoValue <> Derive.Parens) by discriminate.
  assert (Hpre : Forall (fun m => (exists q, m = Derive.Meta "prefix" (Derive.EqLit (Derive.LitStr q))) \/
                   (exists k' v', m = Derive.Meta k' v' /\ k' <> "prefix" /\ v' <> Derive.Parens))
                   [Derive.Meta "prefix" (Derive.EqLit (Derive.LitStr "org"))])
    by (constructor; [left; eexists; reflexivity | constructor]).
  assert (Hpost : Forall (fun m => exists q, m = Derive.Meta "prefix" (Derive.EqLit (Derive.LitStr q)))
                    [Derive.Meta "prefix" (Derive.EqLit (Derive.LitStr "biz"))])
    by (constructor; [eexists; reflexivity | constructor]).
  split; [exact Hk|]. split; [exact Hv|]. split; [exact Hpre|]. split; [exact Hpost|].
  exact (get_prefix_unknown_key _ _ "name" Derive.NoValue [] Hk Hv Hpre Hpost).
Defined.

(** Within a [#[uuid_type(...)]] attribute listing only [prefix = "..."]
    items, the last one wins and the attributes after it are not read; an
    empty [#[uuid_type()]] is passed over. *)
Theorem get_prefix_last_prefix_wins (pre : list string) (p : string) (rest : list Derive.Attribute) :
  Derive.get_prefix_from_attrs
    ({| Derive.attr_path := "uuid_type";
        Derive.attr_args :=
          Some (List.map (fun q => Derive.Meta "prefix" (Derive.EqLit (Derive.LitStr q))) (pre ++ [p])%list) |}
       :: rest) = Ok (Some p) /\
  Derive.get_prefix_from_attrs
    ({| Derive.attr_path := "uuid_type"; Derive.attr_args := Some [] |} :: rest)
  = Derive.get_prefix_from_attrs rest.
Proof.
  cbn [Derive.get_prefix_from_attrs Derive.attr_path Derive.attr_args].
  rewrite String.eqb_refl. cbn [negb].
  rewrite parse_nested_meta_prefixes. split; reflexivity.
Qed.

(** ** [to_snake_case] *)

(** [to_snake_case] leaves unchanged a name with no upper-case letter. *)
Theorem to_snake_case_lower_fixed (s : string)
    (Hs : Forall (fun c => Derive.is_uppercase c = false) (list_ascii_of_string s)) :
  Derive.to_snake_case s = s.
Proof.
  rewrite snake_eq, (snake_spec_no_upper None _ Hs).
  apply string_of_list_ascii_of_string.
Qed.

Lemma to_snake_case_lower_fixed_witness :
  Forall (fun c => Derive.is_uppercase c = false) (list_ascii_of_string "purchase_order") /\
  Derive.to_snake_case "purchase_order" = "purchase_order".
Proof.
  assert (Hs : Forall (fun c => Derive.is_uppercase c = false) (list_ascii_of_string "purchase_order"))
    by (repeat constructor).
  split; [exact Hs | exact (to_snake_case_lower_fixed "purchase_order" Hs)].
Defined.





(** ** typed_uuid.rs *)

(** [TypedUuid::new] keeps the random draw everywhere except in the bits
    it overwrites: byte 0 (the discriminant), the high nibble of byte 6 and
    the top two bits of byte 8; the other 13 bytes, the low nibble of byte 6
    and the low six bits of byte 8 are those drawn. *)
Theorem new_keeps_random_bits {T : Type} (U : UuidType T) (t : T) (rnd : list Z)
    (Hlen : List.length rnd = 16%nat) :
  List.length (as_bytes U (new U t rnd)) = 16%nat /\
  (forall i, i <> 0%nat -> i <> 6%nat -> i <> 8%nat ->
     nth i (as_bytes U (new U t rnd)) 0 = nth i rnd 0) /\
  Z.land (nth 6 (as_bytes U (new U t rnd)) 0) 15 = Z.land (nth 6 rnd 0) 15 /\
  Z.land (nth 8 (as_bytes U (new U t rnd)) 0) 63 = Z.land (nth 8 rnd 0) 63.
Proof.
  destruct_16 rnd. unfold as_bytes, new, Uuid.new_v8. cbn [set_nth nth inner List.length].
  split; [reflexivity|]. split.
  - intros i H0 H6 H8.
    do 16 (destruct i as [|i]; [first [congruence | reflexivity]|]).
    cbn. destruct i; reflexivity.
  - split; apply land_lor_low; reflexivity.
Qed.

Lemma new_keeps_random_bits_witness :
  List.length sample_rnd = 16%nat /\
  (List.length (as_bytes UserTypeU (new UserTypeU Business sample_rnd)) = 16%nat /\
   (forall i, i <> 0%nat -> i <> 6%nat -> i <> 8%nat ->
      nth i (as_bytes UserTypeU (new UserTypeU Business sample_rnd)) 0 = nth i sample_rnd 0) /\
   Z.land (nth 6 (as_bytes UserTypeU (new UserTypeU Business sample_rnd)) 0) 15
     = Z.land (nth 6 sample_rnd 0) 15 /\
   Z.land (nth 8 (as_bytes UserTypeU (new UserTypeU Business sample_rnd)) 0) 63
     = Z.land (nth 8 sample_rnd 0) 63).
Proof.
  split; [reflexivity|]. apply (new_keeps_random_bits UserTypeU Business sample_rnd). reflexivity.
Defined.

(** The [Display] of a [TypedUuid] holding 16 bytes is 36 characters long,
    with a hyphen at positions 8, 13, 18 and 23 and a lower-case
    hexadecimal digit at every other position. *)
Theorem typed_to_string_shape {T : Type} (U : UuidType T) (x : TypedUuid U)
    (Hlen : List.length (inner x) = 16%nat)
    (Hbytes : Forall (fun b => 0 <= b < 256) (inner x)) :
  String.length (typed_to_string U x) = 36%nat /\
  (forall i c, get i (typed_to_string U x) = Some c ->
     if existsb (Nat.eqb i) [8; 13; 18; 23]%nat then c = "-"%char else is_lower_hex c = true).
Proof.
  destruct x as [u]. cbn [inner] in *. destruct_16 u.
  repeat match goal with H : Forall _ (_ :: _) |- _ => inversion_clear H end.
  unfold typed_to_string, Uuid.encode_hyphenated. cbn [inner].
  cbn -[Uuid.hex_digit Z.shiftr Z.land].
  split; [reflexivity|].
  intros i c Hi.
  do 36 (destruct i as [|i];
         [cbn -[Uuid.hex_digit Z.shiftr Z.land] in Hi |- *; injection Hi as <-;
          first [reflexivity
                | match goal with
                  | |- is_lower_hex (Uuid.hex_digit (Z.shiftr ?b 4)) = true =>
                      exact (proj1 (hex_lower b ltac:(assumption)))
                  | |- is_lower_hex (Uuid.hex_digit (Z.land ?b 15)) = true =>
                      exact (proj2 (hex_lower b ltac:(assumption)))
                  end] |]).
  cbn in Hi. discriminate.
Qed.

Lemma typed_to_string_shape_witness :
  List.length (inner (new UserTypeU Organization sample_rnd)) = 16%nat /\
  Forall (fun b => 0 <= b < 256) (inner (new UserTypeU Organization sample_rnd)) /\
  (String.length (typed_to_string UserTypeU (new UserTypeU Organization sample_rnd)) = 36%nat /\
   (forall i c, get i (typed_to_string UserTypeU (new UserTypeU Organization sample_rnd)) = Some c ->
      if existsb (Nat.eqb i) [8; 13; 18; 23]%nat then c = "-"%char else is_lower_hex c = true)).
Proof.
  assert (Hb : Forall (fun b => 0 <= b < 256) (inner (new UserTypeU Organization sample_rnd)))
    by (apply bytes_of_check; vm_compute; reflexivity).
  split; [vm_compute; reflexivity|]. split; [exact Hb|].
  apply (typed_to_string_shape UserTypeU (new UserTypeU Organization sample_rnd));
    [vm_compute; reflexivity | exact Hb].
Defined.

(** [FromStr for TypedUuid] accepts every textual form the UUID library
    reads and gives the same value for each: the simple form (32 digits),
    the hyphenated form, the braced form and the URN form of the same
    16 bytes all parse to [from_uuid] of those bytes. *)
Theorem typed_from_str_forms {T : Type} (U : UuidType T) (u : list Z)
    (Hlen : List.length u = 16%nat)
    (Hbytes : Forall (fun b => 0 <= b < 256) u) :
  typed_from_str U (Uuid.hex_of u) = from_uuid U u /\
  typed_from_str U (Uuid.encode_hyphenated u) = from_uuid U u /\
  typed_from_str U (String "{" (Uuid.encode_hyphenated u ++ "}")) = from_uuid U u /\
  typed_from_str U ("urn:uuid:" ++ Uuid.encode_hyphenated u) = from_uuid U u.
Proof.
  destruct_16 u.
  repeat match goal with H : Forall _ (_ :: _) |- _ => inversion_clear H end.
  unfold typed_from_str, Uuid.parse_str, Uuid.parse_simple, Uuid.parse_hyphenated,
    Uuid.encode_hyphenated.
  cbn -[Uuid.pair_val Uuid.hex_digit Z.shiftr Z.land from_uuid].
  rewrite !pair_val_byte_hex by assumption.
  repeat split; reflexivity.
Qed.

Lemma typed_from_str_forms_witness :
  List.length [1; 14; 132; 0; 226; 155; 129; 212; 167; 22; 68; 102; 85; 68; 0; 0] = 16%nat /\
  Forall (fun b => 0 <= b < 256) [1; 14; 132; 0; 226; 155; 129; 212; 167; 22; 68; 102; 85; 68; 0; 0] /\
  (typed_from_str UserTypeU (Uuid.hex_of [1; 14; 132; 0; 226; 155; 129; 212; 167; 22; 68; 102; 85; 68; 0; 0])
     = from_uuid UserTypeU [1; 14; 132; 0; 226; 155; 129; 212; 167; 22; 68; 102; 85; 68; 0; 0] /\
   typed_from_str UserTypeU
     (Uuid.encode_hyphenated [1; 14; 132; 0; 226; 155; 129; 212; 167; 22; 68; 102; 85; 68; 0; 0])
     = from_uuid UserTypeU [1; 14; 132; 0; 226; 155; 129; 212; 167; 22; 68; 102; 85; 68; 0; 0] /\
   typed_from_str UserTypeU
     (String "{" (Uuid.encode_hyphenated [1; 14; 132; 0; 226; 155; 129; 212; 167; 22; 68; 102; 85; 68; 0; 0]
                  ++ "}"))
     = from_uuid UserTypeU [1; 14; 132; 0; 226; 155; 129; 212; 167; 22; 68; 102; 85; 68; 0; 0] /\
   typed_from_str UserTypeU
     ("urn:uuid:" ++ Uuid.encode_hyphenated [1; 14; 132; 0; 226; 155; 129; 212; 167; 22; 68; 102; 85; 68; 0; 0])
     = from_uuid UserTypeU [1; 14; 132; 0; 226; 155; 129; 212; 167; 22; 68; 102; 85; 68; 0; 0]).
Proof.
  assert (Hb : Forall (fun b => 0 <= b < 256)
                 [1; 14; 132; 0; 226; 155; 129; 212; 167; 22; 68; 102; 85; 68; 0; 0])
    by (apply bytes_of_check; vm_compute; reflexivity).
  split; [reflexivity|]. split; [exact Hb|].
  apply (typed_from_str_forms UserTypeU); [reflexivity | exact Hb].
Defined.

(** What [FromStr for TypedUuid] accepts, it renders in the canonical
    hyphenated lower-case form, which parses back to the same value. *)
Theorem typed_from_str_normalises {T : Type} (U : UuidType T) (s : string) (x : TypedUuid U)
    (Hs : typed_from_str U s = Ok x) :
  typed_from_str U (typed_to_string U x) = Ok x.
Proof.
  unfold typed_from_str in Hs.
  destruct (Uuid.parse_str s) as [u|e] eqn:Hp; [|discriminate].
  destruct (uuid_parse_str_bytes s u Hp) as [Hl Hb].
  unfold from_uuid in Hs.
  destruct (from_discriminant U (nth 0 u 0)) as [t|] eqn:Hd; [|discriminate].
  injection Hs as <-.
  unfold typed_from_str, typed_to_string. cbn [inner].
  rewrite parse_encode by assumption. unfold from_uuid. rewrite Hd. reflexivity.
Qed.

Lemma typed_from_str_normalises_witness :
  typed_from_str UserTypeU "{020E8400-E29B-81D4-A716-446655440000}"
    = Ok (mkTypedUuid [2; 14; 132; 0; 226; 155; 129; 212; 167; 22; 68; 102; 85; 68; 0; 0]) /\
  typed_from_str UserTypeU
    (typed_to_string UserTypeU (mkTypedUuid [2; 14; 132; 0; 226; 155; 129; 212; 167; 22; 68; 102; 85; 68; 0; 0]))
    = Ok (mkTypedUuid [2; 14; 132; 0; 226; 155; 129; 212; 167; 22; 68; 102; 85; 68; 0; 0]).
Proof.
  assert (Hs : typed_from_str UserTypeU "{020E8400-E29B-81D4-A716-446655440000}"
               = Ok (mkTypedUuid [2; 14; 132; 0; 226; 155; 129; 212; 167; 22; 68; 102; 85; 68; 0; 0]))
    by (vm_compute; reflexivity).
  split; [exact Hs | exact (typed_from_str_normalises UserTypeU _ _ Hs)].
Defined.

(** ** user_friendly_uuid.rs *)

(** Whatever [UserFriendlyUuid::parse_str] accepts splits at its last
    underscore into the value's own prefix and a UUID text; the value's
    [Display] keeps that prefix, puts the UUID in the canonical hyphenated
    form, and parses back to the same value. *)
Theorem friendly_parse_normalises {T : Type} (U : UuidType T) (s : string) (y : UserFriendlyUuid U)
    (Hs : parse_str U s = Some (Ok y)) :
  exists pre post, s = pre ++ String "_" post /\
    friendly_prefix U y = Some pre /\
    friendly_to_string U y = Some (pre ++ String "_" (typed_to_string U (typed_uuid y))) /\
    parse_str U (pre ++ String "_" (typed_to_string U (typed_uuid y))) = Some (Ok y).
Proof.
  destruct (rfind "_" s) as [n|] eqn:R.
  2:{ unfold parse_str in Hs. rewrite R in Hs. discriminate. }
  destruct (rfind_some_split s n R) as (pre & post & -> & _ & Hn).
  rewrite parse_str_split in Hs by exact Hn.
  destruct (Uuid.parse_str post) as [u|e] eqn:Hp; [|discriminate].
  destruct (uuid_parse_str_bytes post u Hp) as [Hl Hb].
  destruct (from_discriminant U (nth 0 u 0)) as [t|] eqn:Hd; [|discriminate].
  destruct (String.eqb pre (prefix U t)) eqn:Ep; [|discriminate].
  apply String.eqb_eq in Ep. subst pre.
  injection Hs as <-.
  exists (prefix U t), post. split; [reflexivity|].
  unfold friendly_to_string, friendly_prefix, variant_type, typed_to_string. cbn [typed_uuid inner].
  rewrite Hd. split; [reflexivity|]. split; [reflexivity|].
  rewrite parse_str_split by (apply encode_no_underscore; exact Hb).
  rewrite parse_encode by assumption. rewrite Hd, String.eqb_refl. reflexivity.
Qed.

Lemma friendly_parse_normalises_witness :
  parse_str DocumentTypeU "purchase_order_urn:uuid:02C9A7B8-0000-8000-8000-00000000000A"
    = Some (Ok (mkUserFriendly (mkTypedUuid [2; 201; 167; 184; 0; 0; 128; 0; 128; 0; 0; 0; 0; 0; 0; 10]))) /\
  exists pre post, "purchase_order_urn:uuid:02C9A7B8-0000-8000-8000-00000000000A" = pre ++ String "_" post /\
    friendly_prefix DocumentTypeU
      (mkUserFriendly (mkTypedUuid [2; 201; 167; 184; 0; 0; 128; 0; 128; 0; 0; 0; 0; 0; 0; 10])) = Some pre /\
    friendly_to_string DocumentTypeU
      (mkUserFriendly (mkTypedUuid [2; 201; 167; 184; 0; 0; 128; 0; 128; 0; 0; 0; 0; 0; 0; 10]))
      = Some (pre ++ String "_" (typed_to_string DocumentTypeU
                 (mkTypedUuid [2; 201; 167; 184; 0; 0; 128; 0; 128; 0; 0; 0; 0; 0; 0; 10]))) /\
    parse_str DocumentTypeU
      (pre ++ String "_" (typed_to_string DocumentTypeU
                 (mkTypedUuid [2; 201; 167; 184; 0; 0; 128; 0; 128; 0; 0; 0; 0; 0; 0; 10])))
      = Some (Ok (mkUserFriendly (mkTypedUuid [2; 201; 167; 184; 0; 0; 128; 0; 128; 0; 0; 0; 0; 0; 0; 10]))).
Proof.
  assert (Hs : parse_str DocumentTypeU "purchase_order_urn:uuid:02C9A7B8-0000-8000-8000-00000000000A"
    = Some (Ok (mkUserFriendly (mkTypedUuid [2; 201; 167; 184; 0; 0; 128; 0; 128; 0; 0; 0; 0; 0; 0; 10]))))
    by (vm_compute; reflexivity).
  split; [exact Hs | exact (friendly_parse_normalises DocumentTypeU _ _ Hs)].
Defined.

(** [UserFriendlyUuid::new(t)], for a category set whose [from_discriminant]
    inverts [discriminant] at [t] and 16 random bytes, renders as the prefix
    of [t], an underscore and a 36-character UUID, and parsing that text
    gives back the same value. *)
Theorem friendly_new_roundtrip {T : Type} (U : UuidType T) (t : T) (rnd : list Z)
    (Hlen : List.length rnd = 16%nat)
    (Hbytes : Forall (fun b => 0 <= b < 256) rnd)
    (Hd : 0 <= discriminant U t < 256)
    (Hlaw : from_discriminant U (discriminant U t) = Some t) :
  exists s, friendly_to_string U (friendly_new U t rnd) = Some (prefix U t ++ String "_" s) /\
    String.length s = 36%nat /\
    parse_str U (prefix U t ++ String "_" s) = Some (Ok (friendly_new U t rnd)).
Proof.
  destruct (new_bytes_range U t rnd Hlen Hbytes Hd) as [Hl Hb].
  assert (H0 : nth 0 (inner (new U t rnd)) 0 = discriminant U t)
    by (destruct_16 rnd; reflexivity).
  exists (Uuid.encode_hyphenated (inner (new U t rnd))).
  unfold friendly_to_string, friendly_prefix, variant_type, friendly_new. cbn [typed_uuid].
  rewrite H0, Hlaw. split; [reflexivity|]. split.
  - destruct (inner (new U t rnd)) as [|b0 u]; [discriminate|].
    clear -Hl. set (u0 := b0 :: u) in *. clearbody u0. destruct_16 u0. reflexivity.
  - rewrite parse_str_split by (apply encode_no_underscore; exact Hb).
    rewrite parse_encode by assumption. rewrite H0, Hlaw, String.eqb_refl.
    destruct (new U t rnd). reflexivity.
Qed.

Lemma friendly_new_roundtrip_witness :
  List.length sample_rnd = 16%nat /\ Forall (fun b => 0 <= b < 256) sample_rnd /\
  0 <= discriminant DocumentTypeU Receipt < 256 /\
  from_discriminant DocumentTypeU (discriminant DocumentTypeU Receipt) = Some Receipt /\
  exists s, friendly_to_string DocumentTypeU (friendly_new DocumentTypeU Receipt sample_rnd)
              = Some (prefix DocumentTypeU Receipt ++ String "_" s) /\
    String.length s = 36%nat /\
    parse_str DocumentTypeU (prefix DocumentTypeU Receipt ++ String "_" s)
      = Some (Ok (friendly_new DocumentTypeU Receipt sample_rnd)).
Proof.
  assert (Hb : Forall (fun b => 0 <= b < 256) sample_rnd)
    by (apply bytes_of_check; vm_compute; reflexivity).
  assert (Hd : 0 <= discriminant DocumentTypeU Receipt < 256).
  { replace (discriminant DocumentTypeU Receipt) with 1 by (vm_compute; reflexivity). lia. }
  assert (Hlaw : from_discriminant DocumentTypeU (discriminant DocumentTypeU Receipt) = Some Receipt)
    by (vm_compute; reflexivity).
  split; [reflexivity|]. split; [exact Hb|]. split; [exact Hd|]. split; [exact Hlaw|].
  exact (friendly_new_roundtrip DocumentTypeU Receipt sample_rnd eq_refl Hb Hd Hlaw).
Defined.

(** ** Serialization *)

(** A [TypedUuid] holding 16 bytes with a known discriminant deserializes
    back from its own serialization, in the human-readable (string) form as
    in the compact (bytes) form. *)
Theorem typed_serde_roundtrip {T : Type} (U : UuidType T) (x : TypedUuid U)
    (Hlen : List.length (inner x) = 16%nat)
    (Hbytes : Forall (fun b => 0 <= b < 256) (inner x))
    (Hdisc : from_discriminant U (nth 0 (inner x) 0) <> None) :
  forall hr, Serde.typed_deserialize U hr (Serde.typed_serialize U hr x) = Ok x.
Proof.
  destruct x as [u]. cbn [inner] in *. intros hr.
  unfold Serde.typed_deserialize, Serde.typed_serialize, Serde.uuid_serialize. cbn [inner].
  destruct hr.
  - cbn [Serde.uuid_deserialize]. rewrite parse_encode by assumption. cbn [map_err].
    unfold from_uuid. destruct (from_discriminant U (nth 0 u 0)); [reflexivity | contradiction].
  - cbn [Serde.uuid_deserialize]. unfold Serde.uuid_from_slice. rewrite Hlen. cbn [Nat.eqb].
    unfold from_uuid. destruct (from_discriminant U (nth 0 u 0)); [reflexivity | contradiction].
Qed.

Lemma typed_serde_roundtrip_witness :
  List.length (inner (new UserTypeU Retail sample_rnd)) = 16%nat /\
  Forall (fun b => 0 <= b < 256) (inner (new UserTypeU Retail sample_rnd)) /\
  from_discriminant UserTypeU (nth 0 (inner (new UserTypeU Retail sample_rnd)) 0) <> None /\
  forall hr, Serde.typed_deserialize UserTypeU hr
               (Serde.typed_serialize UserTypeU hr (new UserTypeU Retail sample_rnd))
             = Ok (new UserTypeU Retail sample_rnd).
Proof.
  assert (Hb : Forall (fun b => 0 <= b < 256) (inner (new UserTypeU Retail sample_rnd)))
    by (apply bytes_of_check; vm_compute; reflexivity).
  assert (Hd : from_discriminant UserTypeU (nth 0 (inner (new UserTypeU Retail sample_rnd)) 0) <> None)
    by (vm_compute; discriminate).
  split; [vm_compute; reflexivity|]. split; [exact Hb|]. split; [exact Hd|].
  exact (typed_serde_roundtrip UserTypeU (new UserTypeU Retail sample_rnd) eq_refl Hb Hd).
Defined.

(** Deserializing a [TypedUuid] from a well-formed UUID whose byte 0 is
    not a discriminant of the category set fails, in either form, with the
    custom error carrying the text "invalid discriminant <byte 0> for type
    <type name>". *)
Theorem typed_deserialize_invalid_discriminant {T : Type} (U : UuidType T) (u : list Z)
    (Hlen : List.length u = 16%nat)
    (Hbytes : Forall (fun b => 0 <= b < 256) u)
    (Hdisc : from_discriminant U (nth 0 u 0) = None) :
  forall hr, Serde.typed_deserialize U hr (Serde.uuid_serialize hr u) =
    Err (Serde.custom ("invalid discriminant " ++ dec_of_Z (nth 0 u 0) ++ " for type " ++ type_name U)).
Proof.
  intros hr. unfold Serde.typed_deserialize, Serde.uuid_serialize.
  destruct hr.
  - cbn [Serde.uuid_deserialize]. rewrite parse_encode by assumption. cbn [map_err].
    unfold from_uuid. rewrite Hdisc. reflexivity.
  - cbn [Serde.uuid_deserialize]. unfold Serde.uuid_from_slice. rewrite Hlen. cbn [Nat.eqb].
    unfold from_uuid. rewrite Hdisc. reflexivity.
Qed.

Lemma typed_deserialize_invalid_discriminant_witness :
  List.length [7; 14; 132; 0; 226; 155; 129; 212; 167; 22; 68; 102; 85; 68; 0; 0] = 16%nat /\
  Forall (fun b => 0 <= b < 256) [7; 14; 132; 0; 226; 155; 129; 212; 167; 22; 68; 102; 85; 68; 0; 0] /\
  from_discriminant UserTypeU (nth 0 [7; 14; 132; 0; 226; 155; 129; 212; 167; 22; 68; 102; 85; 68; 0; 0] 0)
    = None /\
  forall hr, Serde.typed_deserialize UserTypeU hr
    (Serde.uuid_serialize hr [7; 14; 132; 0; 226; 155; 129; 212; 167; 22; 68; 102; 85; 68; 0; 0]) =
    Err (Serde.custom ("invalid discriminant "
           ++ dec_of_Z (nth 0 [7; 14; 132; 0; 226; 155; 129; 212; 167; 22; 68; 102; 85; 68; 0; 0] 0)
           ++ " for type " ++ type_name UserTypeU)).
Proof.
  assert (Hb : Forall (fun b => 0 <= b < 256)
                 [7; 14; 132; 0; 226; 155; 129; 212; 167; 22; 68; 102; 85; 68; 0; 0])
    by (apply bytes_of_check; vm_compute; reflexivity).
  assert (Hd : from_discriminant UserTypeU
                 (nth 0 [7; 14; 132; 0; 226; 155; 129; 212; 167; 22; 68; 102; 85; 68; 0; 0] 0) = None)
    by (vm_compute; reflexivity).
  split; [reflexivity|]. split; [exact Hb|]. split; [exact Hd|].
  exact (typed_deserialize_invalid_discriminant UserTypeU [7; 14; 132; 0; 226; 155; 129; 212; 167; 22; 68; 102; 85; 68; 0; 0] eq_refl Hb Hd).
Defined.

(** A [UserFriendlyUuid] built from a [TypedUuid] holding 16 bytes with a
    known discriminant serializes to a string and deserializes back from
    it, whatever the human-readable flags of the serializer and of the
    deserializer. *)
Theorem friendly_serde_roundtrip {T : Type} (U : UuidType T) (x : TypedUuid U)
    (Hlen : List.length (inner x) = 16%nat)
    (Hbytes : Forall (fun b => 0 <= b < 256) (inner x))
    (Hdisc : from_discriminant U (nth 0 (inner x) 0) <> None) :
  forall hr hr', exists v,
    Serde.friendly_serialize U hr (from_typed_uuid U x) = Some v /\
    Serde.friendly_deserialize U hr' v = Some (Ok (from_typed_uuid U x)).
Proof.
  intros hr hr'.
  destruct (from_discriminant U (nth 0 (inner x) 0)) as [t|] eqn:Hd; [|contradiction].
  exists (Serde.SStr (prefix U t ++ String "_" (Uuid.encode_hyphenated (inner x)))).
  unfold Serde.friendly_serialize, friendly_to_string, friendly_prefix, variant_type, from_typed_uuid.
  cbn [typed_uuid]. rewrite Hd. split; [reflexivity|].
  unfold Serde.friendly_deserialize. cbn [Serde.string_deserialize].
  rewrite parse_str_split by (apply encode_no_underscore; exact Hbytes).
  rewrite parse_encode by assumption. rewrite Hd, String.eqb_refl.
  destruct x. reflexivity.
Qed.

Lemma friendly_serde_roundtrip_witness :
  List.length (inner (new DocumentTypeU Quote sample_rnd)) = 16%nat /\
  Forall (fun b => 0 <= b < 256) (inner (new DocumentTypeU Quote sample_rnd)) /\
  from_discriminant DocumentTypeU (nth 0 (inner (new DocumentTypeU Quote sample_rnd)) 0) <> None /\
  forall hr hr', exists v,
    Serde.friendly_serialize DocumentTypeU hr
      (from_typed_uuid DocumentTypeU (new DocumentTypeU Quote sample_rnd)) = Some v /\
    Serde.friendly_deserialize DocumentTypeU hr' v
      = Some (Ok (from_typed_uuid DocumentTypeU (new DocumentTypeU Quote sample_rnd))).
Proof.
  assert (Hb : Forall (fun b => 0 <= b < 256) (inner (new DocumentTypeU Quote sample_rnd)))
    by (apply bytes_of_check; vm_compute; reflexivity).
  assert (Hd : from_discriminant DocumentTypeU (nth 0 (inner (new DocumentTypeU Quote sample_rnd)) 0) <> None)
    by (vm_compute; discriminate).
  split; [vm_compute; reflexivity|]. split; [exact Hb|]. split; [exact Hd|].
  exact (friendly_serde_roundtrip DocumentTypeU (new DocumentTypeU Quote sample_rnd) eq_refl Hb Hd).
Defined.

(** Deserializing a [UserFriendlyUuid] from a string with no underscore
    fails with the custom error "invalid format: expected format
    'prefix_uuid', no underscore found"; from the rendering of a valid
    UUID behind a prefix that is not the one of its category, it fails
    with "unknown prefix '<prefix>' for type <type name>". *)
Theorem friendly_deserialize_errors {T : Type} (U : UuidType T) :
  (forall hr s, ~ In "_"%char (list_ascii_of_string s) ->
     Serde.friendly_deserialize U hr (Serde.SStr s) =
       Some (Err (Serde.custom "invalid format: expected format 'prefix_uuid', no underscore found"))) /\
  (forall hr p x t, List.length (inner x) = 16%nat -> Forall (fun b => 0 <= b < 256) (inner x) ->
     from_discriminant U (nth 0 (inner x) 0) = Some t -> p <> prefix U t ->
     Serde.friendly_deserialize U hr (Serde.SStr (p ++ String "_" (typed_to_string U x))) =
       Some (Err (Serde.custom ("unknown prefix '" ++ p ++ "' for type " ++ type_name U)))).
Proof.
  split.
  - intros hr s Hn. unfold Serde.friendly_deserialize. cbn [Serde.string_deserialize].
    rewrite parse_str_no_underscore by exact Hn. reflexivity.
  - intros hr p x t Hl Hb Hd Hp. unfold Serde.friendly_deserialize, typed_to_string.
    cbn [Serde.string_deserialize].
    rewrite parse_str_split by (apply encode_no_underscore; exact Hb).
    rewrite parse_encode by assumption. rewrite Hd.
    apply String.eqb_neq in Hp. rewrite Hp. reflexivity.
Qed.
